(** * muler.nirspec: the Keck NIRSPEC spectrum container and its list of orders

    A shallow embedding of [src/muler/nirspec.py] (classes
    [KeckNIRSPECSpectrum] and [KeckNIRSPECSpectrumList]) and the properties
    its specification states about them.

    Conventions of the embedding:
    - a Python [str] is a [string]; each character is a code point below 256;
    - a numpy [float64] is a [spec_float] used at precision 53 and maximal
      exponent 1024 (IEEE 754 binary64, one NaN);
    - a one-dimensional numpy array is a [list];
    - a Python [dict] keyed by strings is a [gmap string _];
    - a raised exception is the [Err] result; code that logs or mutates a
      list object runs in the monad [M] over the [World] (heap of list
      objects and log records);
    - units are left out: wavelengths are in ångström and fluxes in counts
      throughout.

    The base class and its arithmetic are not part of this module; they
    are modelled from the specification and marked so, or taken as
    parameters (the element methods behind [remove_nans],
    [remove_outliers] and [trim_edges], the unit and time conversions
    behind [RA], [DEC] and [astropy_time]). [to_HDF5] and [plot], which
    only write files and draw, are not embedded. *)

From Stdlib Require Import ZArith Ascii String List Bool Lia Permutation Sorted.
From Stdlib Require Import SpecFloat.
From stdpp Require Import base option gmap strings list.

Open Scope string_scope.
Open Scope list_scope.
Open Scope Z_scope.

(** ** Python strings *)

Module PyStr.

(** [sub in s] is decided by the first position at which [sub] is a prefix. *)
Fixpoint find (sub s : string) : option nat :=
  if String.prefix sub s then Some 0%nat
  else match s with
       | EmptyString => None
       | String _ s' => S <$> find sub s'
       end.

Definition contains (sub s : string) : bool := bool_decide (is_Some (find sub s)).

(** [s[:n]] and [s[n:]] for a non-negative [n]. *)
Fixpoint take (n : nat) (s : string) : string :=
  match n, s with
  | S n', String c s' => String c (take n' s')
  | _, _ => EmptyString
  end.

Fixpoint drop (n : nat) (s : string) : string :=
  match n, s with
  | S n', String _ s' => drop n' s'
  | _, _ => s
  end.

(** [s[-n:]] for a positive [n]: the last [n] characters, all of [s] when
    it is shorter. *)
Definition suffix (n : nat) (s : string) : string :=
  drop (String.length s - n) s.

(** [s.split(sep)] for a non-empty [sep]: scanned from the left, matches
    do not overlap. [skip] counts the characters of a match still to be
    passed, [cur] is the piece being collected. *)
Fixpoint split_go (sep s : string) (skip : nat) (cur : string) : list string :=
  match s with
  | EmptyString => [cur]
  | String c s' =>
      match skip with
      | S k => split_go sep s' k cur
      | O => if String.prefix sep s
             then cur :: split_go sep s' (String.length sep - 1) EmptyString
             else split_go sep s' 0 (cur +:+ String c EmptyString)
      end
  end.

Definition split (sep s : string) : list string := split_go sep s 0 EmptyString.

(** [l[0]] and [l[-1]] of a list that [split] returned (never empty). *)
Definition first (l : list string) : string := List.hd EmptyString l.
Definition last (l : list string) : string := List.last l EmptyString.

(** [s.replace(old, new)] for a non-empty [old]. *)
Fixpoint replace_go (old new s : string) (skip : nat) : string :=
  match s with
  | EmptyString => EmptyString
  | String c s' =>
      match skip with
      | S k => replace_go old new s' k
      | O => if String.prefix old s
             then new +:+ replace_go old new s' (String.length old - 1)
             else String c (replace_go old new s' 0)
      end
  end.

Definition replace (old new s : string) : string := replace_go old new s 0.

(** *** [int(s)] on a [str], base ten

    CPython skips leading white space, reads an optional sign, then
    digits in which single underscores may stand between two digits, then
    skips trailing white space and must be at the end of the string. *)

Definition digit_of (c : ascii) : option Z :=
  let n := Z.of_N (N_of_ascii c) in
  if (48 <=? n) && (n <=? 57) then Some (n - 48) else None.

Definition is_space (c : ascii) : bool :=
  let n := Z.of_N (N_of_ascii c) in
  ((9 <=? n) && (n <=? 13)) || (n =? 32) || (n =? 133) || (n =? 160).

Fixpoint lstrip (s : string) : string :=
  match s with
  | String c s' => if is_space c then lstrip s' else s
  | EmptyString => EmptyString
  end.

Fixpoint all_space (s : string) : bool :=
  match s with
  | String c s' => is_space c && all_space s'
  | EmptyString => true
  end.

(** The digits after the first one; returns the value and what is left. *)
Fixpoint digits (acc : Z) (s : string) : Z * string :=
  match s with
  | String c s' =>
      match digit_of c with
      | Some d => digits (10 * acc + d) s'
      | None =>
          match s' with
          | String c' s'' =>
              match (if Ascii.eqb c "_" then digit_of c' else None) with
              | Some d => digits (10 * acc + d) s''
              | None => (acc, s)
              end
          | EmptyString => (acc, s)
          end
      end
  | EmptyString => (acc, s)
  end.

Definition unsigned (s : string) : option Z :=
  match s with
  | String c s' =>
      match digit_of c with
      | Some d => let '(v, rest) := digits d s' in
                  if all_space rest then Some v else None
      | None => None
      end
  | EmptyString => None
  end.

Definition int (s : string) : option Z :=
  match lstrip s with
  | String "+" r => unsigned r
  | String "-" r => Z.opp <$> unsigned r
  | r => unsigned r
  end.

End PyStr.

Abbreviation float64 := spec_float.

(** ** Exceptions *)

Inductive Exception :=
  | AssertionError (msg : string)
  | ValueError
  | KeyError (key : string)
  | IndexError
  | OSError
  | TypeError.

Inductive Result (A : Type) :=
  | Ok (a : A)
  | Err (e : Exception).
Arguments Ok {A} a.
Arguments Err {A} e.

#[global] Instance Result_ret : MRet Result := λ A a, Ok a.
#[global] Instance Result_bind : MBind Result :=
  λ A B f m, match m with Ok a => f a | Err e => Err e end.

Definition assert (b : bool) (msg : string) : Result unit :=
  if b then Ok () else Err (AssertionError msg).

Definition from_option {A} (e : Exception) (o : option A) : Result A :=
  match o with Some a => Ok a | None => Err e end.

(** ** numpy arrays of [float64] *)

Module Numpy.

Definition prec : Z := 53.
Definition emax : Z := 1024.

Definition nan : float64 := S754_nan.
Definition of_Z (z : Z) : float64 := binary_normalize prec emax z 0 false.
Definition one : float64 := of_Z 1.
Definition two : float64 := of_Z 2.
Definition zero : float64 := S754_zero false.

Definition add : float64 → float64 → float64 := SFadd prec emax.
Definition sub : float64 → float64 → float64 := SFsub prec emax.
Definition div : float64 → float64 → float64 := SFdiv prec emax.
Definition leb : float64 → float64 → bool := SFleb.

Definition isnan (x : float64) : bool :=
  match x with S754_nan => true | _ => false end.

(** [np.hstack(arrays)] of one-dimensional arrays: numpy refuses an empty
    sequence of arrays. *)
Definition hstack {A} (arrays : list (list A)) : Result (list A) :=
  match arrays with
  | [] => Err ValueError
  | _ => Ok (concat arrays)
  end.

(** Sorting the values that are not NaN, by insertion. *)
Fixpoint insert (x : float64) (l : list float64) : list float64 :=
  match l with
  | [] => [x]
  | y :: l' => if leb x y then x :: l else y :: insert x l'
  end.

Definition sort (l : list float64) : list float64 := foldr insert [] l.

(** [np.nanmedian(a)] of a one-dimensional array: NaN when no value is
    left after the NaNs are dropped, the middle value of the sorted rest
    when their number is odd, the mean of the two middle values otherwise.
    numpy selects by partition; values that compare equal (the two zeros)
    may come out in either sign. *)
Definition nanmedian (a : list float64) : float64 :=
  let v := sort (filter (λ x, isnan x = false) a) in
  let n := length v in
  if (n =? 0)%nat then nan
  else if Nat.odd n then nth (n / 2) v nan
       else div (add (nth (n / 2 - 1) v nan) (nth (n / 2) v nan)) two.

End Numpy.

(** ** FITS files *)

Inductive HeaderValue :=
  | HFloat (x : float64)
  | HInt (z : Z)
  | HStr (s : string).

(** One row of the flux table of extension 1, its numeric columns already
    widened to [float64]: [wave (A)], [flux (cnts)], [noise (cnts)],
    [sky (cnts)] and [col]. *)
Record Row := {
  wave : float64;
  flux_cnts : float64;
  noise_cnts : float64;
  sky_cnts : float64;
  col : Z }.

(** What [fits.open] finds at a path: a FITS file with its primary header
    and, when it has an extension 1, that binary table; or something that
    is no FITS file. *)
Inductive File :=
  | Fits (primary_header : gmap string HeaderValue) (table : option (list Row))
  | NotFits.

(** [WCS(hdr)], kept as the header it was built from. *)
Record WCS := { wcs_header : gmap string HeaderValue }.

(** ** The spectrum container *)

Inductive Container :=
  | Spectrum (spectral_axis flux : list float64)
             (uncertainty : option (list float64))
             (mask : option (list bool))
             (wcs : option WCS)
             (meta : gmap string MetaValue)
with MetaValue :=
  | MNone
  | MInt (z : Z)
  | MStr (s : string)
  | MInts (l : list Z)
  | MHeader (h : gmap string HeaderValue)
  | MSpectrum (c : Container).

Definition spectral_axis (c : Container) := let 'Spectrum a _ _ _ _ _ := c in a.
Definition flux (c : Container) := let 'Spectrum _ f _ _ _ _ := c in f.
Definition uncertainty (c : Container) := let 'Spectrum _ _ u _ _ _ := c in u.
Definition mask (c : Container) := let 'Spectrum _ _ _ m _ _ := c in m.
Definition wcs (c : Container) := let 'Spectrum _ _ _ _ w _ := c in w.
Definition meta (c : Container) := let 'Spectrum _ _ _ _ _ m := c in m.

(** The axis is kept in ångström, as the loader produces it, so the
    [wavelength] property is the axis itself. *)
Definition wavelength (c : Container) : list float64 := spectral_axis c.

Definition set_meta (c : Container) (k : string) (v : MetaValue) : Container :=
  let 'Spectrum a f u m w d := c in Spectrum a f u m w (<[k := v]> d).

(** Modelled from the spec: the constructor of the base spectral container
    ([muler.echelle.EchelleSpectrum], over the external spectral-data
    library), which is not among the sources. It stores the arrays it is
    given ("plain pass-through"); an absent [meta] is the empty [dict]. *)
Definition EchelleSpectrum_init
    (spectral_axis flux : list float64) (mask : option (list bool))
    (wcs : option WCS) (uncertainty : option (list float64))
    (meta : option (gmap string MetaValue)) : Container :=
  Spectrum spectral_axis flux uncertainty mask wcs (default ∅ meta).

(** How the base arithmetic combines uncertainties and masks is left to the
    external library: these are its four combinators. *)
Record Propagation := {
  sub_uncertainty : Container → Container → option (list float64);
  sub_mask : Container → Container → option (list bool);
  div_uncertainty : Container → float64 → option (list float64);
  div_mask : Container → float64 → option (list bool) }.

(** A propagation that keeps the first operand's uncertainty and mask. *)
Definition keep_first : Propagation := {|
  sub_uncertainty a _ := uncertainty a;
  sub_mask a _ := mask a;
  div_uncertainty a _ := uncertainty a;
  div_mask a _ := mask a |}.

(** Modelled from the spec: [subtract(other, handle_meta="first_found")] of
    the base container, not among the sources: "an element-wise
    subtraction of the sky Container's flux from the primary flux
    (delegating uncertainty/mask combination to the base arithmetic
    operation, metadata conflicts resolved by keeping the first operand's
    metadata)". Arrays of different lengths are refused. *)
Definition subtract (P : Propagation) (self other : Container) : Result Container :=
  if bool_decide (length (flux self) = length (flux other)) then
    Ok (Spectrum (spectral_axis self)
                 (zip_with Numpy.sub (flux self) (flux other))
                 (sub_uncertainty P self other) (sub_mask P self other)
                 (wcs self) (meta self))
  else Err ValueError.

(** Modelled from the spec: [divide(scalar, handle_meta="first_found")] of
    the base container, not among the sources: "divides every element's
    flux (and propagates uncertainty/mask) by that scalar". [divided] is
    the container that a division returns. A scalar that is NaN is not
    accepted as an operand: the base container raises [ValueError] and
    nothing is divided. *)
Definition divided (P : Propagation) (scalar : float64) (self : Container) : Container :=
  Spectrum (spectral_axis self)
           (map (λ x, Numpy.div x scalar) (flux self))
           (div_uncertainty P self scalar) (div_mask P self scalar)
           (wcs self) (meta self).

Definition divide (P : Propagation) (self : Container) (scalar : float64) : Result Container :=
  if Numpy.isnan scalar then Err ValueError else Ok (divided P scalar self).

(** What multiplying a header card by a unit gives ([card * u.hourangle])
    and what [Time(mjd, format="mjd", scale="utc")] gives: both belong to
    the external astronomy library and are parameters here. *)
Record HeaderConversions (Q T : Type) := {
  times_unit : HeaderValue → string → Result Q;
  time_of_mjd : HeaderValue → Result T }.
Arguments times_unit {Q T} _ _ _.
Arguments time_of_mjd {Q T} _ _.

(** The element methods of the base container that the list of orders
    forwards to ([remove_nans], [remove_outliers(threshold)],
    [trim_edges]): they are not among the sources and are parameters
    here. *)
Record EchelleMethods := {
  base_remove_nans : Container → Result Container;
  base_remove_outliers : float64 → Container → Result Container;
  base_trim_edges : Container → Result Container }.

(** ** The world: list objects on a heap, and the log *)

Inductive Level := WARNING | ERROR.

Record World := {
  heap : gmap positive (list Container);
  log : list (Level * string) }.

Definition M (A : Type) : Type := World → Result A * World.

#[global] Instance M_ret : MRet M := λ A a w, (Ok a, w).
#[global] Instance M_bind : MBind M :=
  λ A B f m w, match m w with
               | (Ok a, w') => f a w'
               | (Err e, w') => (Err e, w')
               end.

Definition lift {A} (r : Result A) : M A := λ w, (r, w).

Definition emit (lvl : Level) (msg : string) : M unit :=
  λ w, (Ok (), {| heap := heap w; log := log w ++ [(lvl, msg)] |}).

(** A new list object holding a copy of [l]. *)
Definition new_list (l : list Container) : M positive :=
  λ w, let r := fresh (dom (heap w)) in
       (Ok r, {| heap := <[r := l]> (heap w); log := log w |}).

(** [len(self)], [self[i]] and [self[i] = c] on a list object. *)
Definition len (self : positive) : M nat :=
  λ w, (from_option TypeError (length <$> heap w !! self), w).

Definition getitem (self : positive) (i : nat) : M Container :=
  λ w, (l ← from_option TypeError (heap w !! self); from_option IndexError (l !! i), w).

Definition setitem (self : positive) (i : nat) (c : Container) : M unit :=
  λ w, match heap w !! self with
       | Some l => if bool_decide (i < length l)%nat
                   then (Ok (), {| heap := <[self := <[i := c]> l]> (heap w); log := log w |})
                   else (Err IndexError, w)
       | None => (Err TypeError, w)
       end.

(** [for i in range(i0, i0 + n): body(i)]. *)
Fixpoint for_range (i0 n : nat) (body : nat → M unit) : M unit :=
  match n with
  | O => mret ()
  | S n' => body i0 ;; for_range (S i0) n' body
  end.

(** [[f(i) for i in range(i0, i0 + n)]]. *)
Fixpoint comprehension {A} (i0 n : nat) (f : nat → M A) : M (list A) :=
  match n with
  | O => mret []
  | S n' => x ← f i0; xs ← comprehension (S i0) n' f; mret (x :: xs)
  end.

(** ** class KeckNIRSPECSpectrum *)

Module KeckNIRSPECSpectrum.

Definition site_name : string := "Keck Observatory".
Definition ancillary_spectra : list string := ["sky"].
Definition noisy_edges : Z * Z := (10, 1000).

Definition exists_ (fs : gmap string File) (path : string) : bool :=
  bool_decide (is_Some (fs !! path)).

(** [fits.open(path)] followed by the lookup of one HDU. *)
Definition fits_open (fs : gmap string File) (path : string)
    : Result (gmap string HeaderValue * option (list Row)) :=
  match fs !! path with
  | Some (Fits hdr tbl) => Ok (hdr, tbl)
  | _ => Err OSError
  end.

(** The validity mask of lines 87-89. *)
Definition mask_of (flux unc : list float64) : list bool :=
  zip_with (λ f u, Numpy.isnan f || Numpy.isnan u || Numpy.leb u Numpy.zero) flux unc.

(** [__init__] without [file]: the keyword arguments go to the base
    constructor as they are. *)
Definition init_arrays
    (spectral_axis flux : list float64) (mask : option (list bool))
    (wcs : option WCS) (uncertainty : option (list float64))
    (meta : option (gmap string MetaValue)) : Container :=
  EchelleSpectrum_init spectral_axis flux mask wcs uncertainty meta.

(** [__init__] with [file] (lines 64-133), called with no further keyword
    argument. [WCS(hdr)] and the base constructor are taken to accept the
    header of the companion file (the external libraries refuse a header
    whose coordinates have several axes and not exactly one spectral
    axis): what is stated about a container built with a companion is
    stated for a construction that succeeds. *)
Definition init_file (fs : gmap string File) (file : string) : Result Container :=
  let file_basename := PyStr.last (PyStr.split "/" file) in
  assert (String.eqb (PyStr.take 3 file_basename) "NS.")
         "Only NSDRP spectra are currently supported" ;;
  let pipeline := "NSDRP" in
  assert (PyStr.contains "_flux_tbl.fits" file_basename)
         "Only fits table files are currently supported" ;;
  let file_stem := PyStr.first (PyStr.split "_flux" file_basename) in
  grating_order ← from_option ValueError (PyStr.int (PyStr.suffix 2 file_stem));
  assert (exists_ fs file) "The file must exist" ;;
  hdu ← fits_open fs file;
  hdu0 ← from_option IndexError (snd hdu);
  let lamb := map wave hdu0 in
  let flux := map flux_cnts hdu0 in
  let unc := map noise_cnts hdu0 in
  let uncertainty := unc in
  let mask := mask_of flux uncertainty in
  let fits_with_full_header :=
    PyStr.replace "_flux_tbl." "_flux." (PyStr.replace "/fitstbl/" "/fits/" file) in
  hdr_wcs ←
    (if exists_ fs fits_with_full_header
     then hdu_hdr ← fits_open fs fits_with_full_header;
          let hdr := fst hdu_hdr in
          Ok (MHeader hdr, Some {| wcs_header := hdr |})
     else Ok (MNone, None));
  let meta_dict : gmap string MetaValue :=
    <["header" := fst hdr_wcs]>
      (<["m" := MInt grating_order]>
         (<["pipeline" := MStr pipeline]>
            (<["x_values" := MInts (map col hdu0)]> ∅))) in
  let self :=
    EchelleSpectrum_init lamb flux (Some mask) (snd hdr_wcs) (Some uncertainty)
                         (Some meta_dict) in
  let flux := map sky_cnts hdu0 in
  let sky_spectrum :=
    init_arrays lamb flux (Some mask) None (Some uncertainty) (Some meta_dict) in
  Ok (set_meta self "sky" (MSpectrum sky_spectrum)).

(** The properties read [self.meta[key]]. *)
Definition meta_getitem (self : Container) (key : string) : Result MetaValue :=
  from_option (KeyError key) (meta self !! key).

Definition pipeline (self : Container) : Result MetaValue := meta_getitem self "pipeline".
Definition sky (self : Container) : Result MetaValue := meta_getitem self "sky".
Definition flat (self : Container) : Result MetaValue := meta_getitem self "flat".

(** [self.meta["header"][key]] (lines 155, 160, 165): the header is a FITS
    header or [None]; subscripting [None] is a [TypeError], and any other
    value is taken to refuse the subscript in the same way. *)
Definition header_getitem (self : Container) (key : string) : Result HeaderValue :=
  hdr ← meta_getitem self "header";
  match hdr with
  | MHeader h => from_option (KeyError key) (h !! key)
  | _ => Err TypeError
  end.

Definition RA {Q T} (H : HeaderConversions Q T) (self : Container) : Result Q :=
  card ← header_getitem self "RA"; times_unit H card "hourangle".

Definition DEC {Q T} (H : HeaderConversions Q T) (self : Container) : Result Q :=
  card ← header_getitem self "DEC"; times_unit H card "deg".

Definition astropy_time {Q T} (H : HeaderConversions Q T) (self : Container) : Result T :=
  mjd ← header_getitem self "MJD-OBS"; time_of_mjd H mjd.

(** [sky_subtract] (lines 168-187). *)
Definition sky_subtract (P : Propagation) (self : Container) (force : bool) : M Container :=
  if force then
    emit WARNING "NIRSPEC data are already natively sky subtracted! Proceeding with a forced sky subtraction anyways..." ;;
    other ← lift (sky self);
    match other with
    | MSpectrum s => lift (subtract P self s)
    | _ => lift (Err TypeError)
    end
  else
    emit ERROR "NIRSPEC data are already natively sky subtracted! To proceed anyway, state `force=True`." ;;
    mret self.

End KeckNIRSPECSpectrum.

(** ** class KeckNIRSPECSpectrumList *)

Module KeckNIRSPECSpectrumList.

(** The body of the loop of [read] (lines 211-214); [list_out] is the
    local list. *)
Fixpoint read_loop (fs : gmap string File) (files : list string)
    (i n : nat) (list_out : list Container) : Result (list Container) :=
  match n with
  | O => Ok list_out
  | S n' =>
      f ← from_option IndexError (files !! i);
      assert (PyStr.contains ".flux_tbl.fits" f) "" ;;
      spec ← KeckNIRSPECSpectrum.init_file fs f;
      read_loop fs files (S i) n' (list_out ++ [spec])
  end.

(** [read] (lines 199-215): the list that is returned is a new object. *)
Definition read (fs : gmap string File) (files : list string) : M positive :=
  let n_orders := length files in
  list_out ← lift (read_loop fs files 0 n_orders []);
  new_list list_out.

(** [normalize] (lines 217-224): the median is taken once, before the
    loop ([copy.deepcopy] of a scalar is the scalar). *)
Definition normalize (P : Propagation) (self : positive) : M positive :=
  c0 ← getitem self 0;
  let median_flux := Numpy.nanmedian (flux c0) in
  n ← len self;
  for_range 0 n (λ i, c ← getitem self i;
                      c' ← lift (divide P c median_flux); setitem self i c') ;;
  mret self.

(** [stitch] (lines 264-273). *)
Definition stitch (self : positive) : M Container :=
  emit WARNING "Experimental method" ;;
  n ← len self;
  wls_parts ← comprehension 0 n (λ i, c ← getitem self i; mret (wavelength c));
  wls ← lift (Numpy.hstack wls_parts);
  n ← len self;
  flux_parts ← comprehension 0 n (λ i, c ← getitem self i; mret (flux c));
  fluxes ← lift (Numpy.hstack flux_parts);
  mret (KeckNIRSPECSpectrum.init_arrays wls fluxes None None None None).

(** [remove_nans], [remove_outliers] and [trim_edges] (lines 226-256):
    each element is replaced, by index, with what its own method returns. *)
Definition remove_nans (E : EchelleMethods) (self : positive) : M positive :=
  n ← len self;
  for_range 0 n (λ i, c ← getitem self i; c' ← lift (base_remove_nans E c); setitem self i c') ;;
  mret self.

Definition default_threshold : float64 := Numpy.of_Z 5.

Definition remove_outliers (E : EchelleMethods) (threshold : float64) (self : positive) : M positive :=
  n ← len self;
  for_range 0 n (λ i, c ← getitem self i;
                      c' ← lift (base_remove_outliers E threshold c); setitem self i c') ;;
  mret self.

Definition trim_edges (E : EchelleMethods) (self : positive) : M positive :=
  n ← len self;
  for_range 0 n (λ i, c ← getitem self i; c' ← lift (base_trim_edges E c); setitem self i c') ;;
  mret self.

End KeckNIRSPECSpectrumList.

(** * The vocabulary of the properties *)

(** ** The loader *)

(** The base name and the stem that [__init__] computes at lines 65 and 73. *)
Definition basename (file : string) : string := PyStr.last (PyStr.split "/" file).
Definition file_stem (file : string) : string :=
  PyStr.first (PyStr.split "_flux" (basename file)).

(** The claim's wording, "the file stem preceding [_flux_tbl]": what
    stands before the first [_flux_tbl] of the base name. *)
Definition stem_before_flux_tbl (name : string) : string :=
  match PyStr.find "_flux_tbl" name with
  | Some i => PyStr.take i name
  | None => name
  end.

(** The metadata [dict] built at lines 103-108. *)
Definition meta_dict (m : Z) (hdr : MetaValue) (rows : list Row) : gmap string MetaValue :=
  <["header" := hdr]>
    (<["m" := MInt m]> (<["pipeline" := MStr "NSDRP"]> (<["x_values" := MInts (map col rows)]> ∅))).

(** The sky container and the primary container that a table of [rows]
    gives, for the order number [m], the header entry [hdr] and the world
    coordinates [w]. *)
Definition sky_of (m : Z) (hdr : MetaValue) (rows : list Row) : Container :=
  Spectrum (map wave rows) (map sky_cnts rows) (Some (map noise_cnts rows))
           (Some (KeckNIRSPECSpectrum.mask_of (map flux_cnts rows) (map noise_cnts rows))) None
           (meta_dict m hdr rows).

Definition primary_of (m : Z) (hdr : MetaValue) (w : option WCS) (rows : list Row) : Container :=
  Spectrum (map wave rows) (map flux_cnts rows) (Some (map noise_cnts rows))
           (Some (KeckNIRSPECSpectrum.mask_of (map flux_cnts rows) (map noise_cnts rows))) w
           (<["sky" := MSpectrum (sky_of m hdr rows)]> (meta_dict m hdr rows)).

(** All four parallel sequences of [c] have length [n]. *)
Definition has_length (c : Container) (n : nat) : Prop :=
  length (wavelength c) = n ∧ length (flux c) = n ∧
  length <$> uncertainty c = Some n ∧ length <$> mask c = Some n.

(** ** The world *)

Definition add_log (w : World) (lvl : Level) (msg : string) : World :=
  {| heap := heap w; log := log w ++ [(lvl, msg)] |}.

Definition set_list (w : World) (self : positive) (l : list Container) : World :=
  {| heap := <[self := l]> (heap w); log := log w |}.

Definition already_subtracted : string :=
  "NIRSPEC data are already natively sky subtracted! To proceed anyway, state `force=True`.".

Definition forced_subtraction : string :=
  "NIRSPEC data are already natively sky subtracted! Proceeding with a forced sky subtraction anyways...".

(** ** The list of orders *)

(** What [stitch] builds from the elements [l]. *)
Definition stitched (l : list Container) : Container :=
  Spectrum (concat (map wavelength l)) (concat (map flux l)) None None None ∅.

(** What [read] raises on one path, if anything: its own assertion comes
    first, then whatever the constructor raises. *)
Definition path_error (fs : gmap string File) (f : string) : option Exception :=
  if PyStr.contains ".flux_tbl.fits" f
  then match KeckNIRSPECSpectrum.init_file fs f with
       | Ok _ => None
       | Err e => Some e
       end
  else Some (AssertionError "").

Definition valid_path (fs : gmap string File) (f : string) : Prop := path_error fs f = None.

(** ** Order and the median *)

Definition float_le (x y : float64) : Prop := Numpy.leb x y = true.
Definition not_nan (x : float64) : Prop := Numpy.isnan x = false.

Fixpoint count (p : float64 → bool) (l : list float64) : nat :=
  match l with
  | [] => 0
  | x :: l' => (if p x then 1 else 0) + count p l'
  end.

(** The samples that are numbers, and the two middle values of the sorted
    numbers when there are at least two of them. *)
Definition numbers (samples : list float64) : list float64 :=
  filter (λ x, Numpy.isnan x = false) samples.

Definition middle_pair (samples : list float64) : option (float64 * float64) :=
  let v := Numpy.sort (numbers samples) in
  a ← v !! (length v / 2 - 1)%nat; b ← v !! (length v / 2)%nat; Some (a, b).

Definition mean2 (a b : float64) : float64 := Numpy.div (Numpy.add a b) Numpy.two.

(** [x] and [y] are the same number (the two zeros are). *)
Definition same_number (x y : float64) : Prop :=
  Numpy.leb x y = true ∧ Numpy.leb y x = true.

(** Division by [m] keeps the order of the samples around the sample [t],
    as division by a positive number does: no sample that is a number
    becomes NaN, and the quotients of the samples stand to [t / m] as the
    samples stand to [t]. It reverses the order around [t], as division by
    a negative number does, when the quotients stand to [t / m] the other
    way round. *)
Definition keeps_order_at (m t : float64) (samples : list float64) : Prop :=
  ∀ x, x ∈ samples → Numpy.isnan x = false →
    Numpy.isnan (Numpy.div x m) = false ∧
    (Numpy.leb t x = true → Numpy.leb (Numpy.div t m) (Numpy.div x m) = true) ∧
    (Numpy.leb x t = true → Numpy.leb (Numpy.div x m) (Numpy.div t m) = true).

Definition reverses_order_at (m t : float64) (samples : list float64) : Prop :=
  ∀ x, x ∈ samples → Numpy.isnan x = false →
    Numpy.isnan (Numpy.div x m) = false ∧
    (Numpy.leb t x = true → Numpy.leb (Numpy.div x m) (Numpy.div t m) = true) ∧
    (Numpy.leb x t = true → Numpy.leb (Numpy.div t m) (Numpy.div x m) = true).

(** The values of [float64] that are binary64 numbers, infinities or NaN:
    a mantissa of at most 53 bits and an exponent in range, in the one
    way a number is written. *)
Definition is_binary64 (x : float64) : Prop := valid_binary Numpy.prec Numpy.emax x = true.

Definition finite_nonzero (x : float64) : Prop :=
  match x with S754_finite _ _ _ => True | _ => False end.

(** [x] is 1.0 within the tolerance [tol]. *)
Definition close_to_one (tol x : float64) : bool :=
  Numpy.leb (SFabs (Numpy.sub x Numpy.one)) tol.

(** ** The checks of the constructor *)

(** The companion file with the full header (lines 92-94). *)
Definition companion_path (file : string) : string :=
  PyStr.replace "_flux_tbl." "_flux." (PyStr.replace "/fitstbl/" "/fits/" file).

(** The two assertions on the base name (lines 66-72) and the order number
    read from the stem (line 74). *)
Definition starts_NS (file : string) : bool :=
  String.eqb (PyStr.take 3 (basename file)) "NS.".

Definition names_table (file : string) : bool :=
  PyStr.contains "_flux_tbl.fits" (basename file).

Definition order_of (file : string) : option Z :=
  PyStr.int (PyStr.suffix 2 (file_stem file)).

Definition only_nsdrp : string := "Only NSDRP spectra are currently supported".
Definition only_tables : string := "Only fits table files are currently supported".
Definition must_exist : string := "The file must exist".

(** ** The methods that replace each order *)

Inductive BatchMethod :=
  | RemoveNans
  | RemoveOutliers (threshold : float64)
  | TrimEdges.

(** The method of the list and the element method it forwards to. *)
Definition run_batch (E : EchelleMethods) (b : BatchMethod) : positive → M positive :=
  match b with
  | RemoveNans => KeckNIRSPECSpectrumList.remove_nans E
  | RemoveOutliers threshold => KeckNIRSPECSpectrumList.remove_outliers E threshold
  | TrimEdges => KeckNIRSPECSpectrumList.trim_edges E
  end.

Definition element_method (E : EchelleMethods) (b : BatchMethod) : Container → Result Container :=
  match b with
  | RemoveNans => base_remove_nans E
  | RemoveOutliers threshold => base_remove_outliers E threshold
  | TrimEdges => base_trim_edges E
  end.

(** The elements that a loop over [l] has replaced when it ends or stops,
    followed by those it has not reached, and the exception that stopped
    it. *)
Fixpoint replace_all (f : Container → Result Container) (l : list Container)
    : list Container * option Exception :=
  match l with
  | [] => ([], None)
  | c :: l' =>
      match f c with
      | Err e => (l, Some e)
      | Ok c' => let '(r, e) := replace_all f l' in (c' :: r, e)
      end
  end.

(** ** Reading, normalizing and stitching in a row *)

(** The rows of the flux table at a path (none when there is no table). *)
Definition table_of (fs : gmap string File) (f : string) : list Row :=
  match fs !! f with
  | Some (Fits _ (Some rows)) => rows
  | _ => []
  end.

(** ** The characters of the order number *)

Definition all_ascii : list ascii := map ascii_of_nat (seq 0 256).

Definition is_digit (c : ascii) : bool := bool_decide (is_Some (PyStr.digit_of c)).
Definition is_sign (c : ascii) : bool := Ascii.eqb c "+" || Ascii.eqb c "-".

(** The pairs of characters that [int()] reads: two digits, or one digit
    after a sign or a blank, or one digit before a blank. *)
Definition reads_as_int (c1 c2 : ascii) : bool :=
  (is_digit c1 && is_digit c2) || (is_sign c1 && is_digit c2) ||
  (PyStr.is_space c1 && is_digit c2) || (is_digit c1 && PyStr.is_space c2).

(** What is checked, by running [int()], on every pair of characters. *)
Definition int_of_pair_checked (c1 c2 : ascii) : bool :=
  match PyStr.int (String c1 (String c2 "")) with
  | Some v => reads_as_int c1 c2 && (-9 <=? v) && (v <=? 99)
  | None => negb (reads_as_int c1 c2)
  end.

(** ** Concrete inputs *)

Module Examples.

Definition row (w f n s : Z) (c : Z) : Row :=
  {| wave := Numpy.of_Z w; flux_cnts := Numpy.of_Z f; noise_cnts := Numpy.of_Z n;
     sky_cnts := Numpy.of_Z s; col := c |}.

Definition nan_row (w : Z) (c : Z) : Row :=
  {| wave := Numpy.of_Z w; flux_cnts := Numpy.nan; noise_cnts := Numpy.of_Z 1;
     sky_cnts := Numpy.of_Z 0; col := c |}.

Definition table63 : list Row := [row 100 6 1 2 0; row 101 3 0 1 1; row 102 9 2 4 2].
Definition table64 : list Row := [row 200 8 1 1 0; row 201 4 1 1 1].

(** A directory of flux tables; the third and fourth paths also carry
    the [.flux_tbl.fits] that [read] asks for. *)
Definition fs : gmap string File :=
  <["/d/fitstbl/NS.1_63_flux_tbl.fits" := Fits ∅ (Some table63)]>
    (<["/d/fitstbl/NS.1_64_flux_tbl.fits" := Fits ∅ (Some table64)]>
       (<["/d/tbl.flux_tbl.fits/NS.1_63_flux_tbl.fits" := Fits ∅ (Some table63)]>
          (<["/d/tbl.flux_tbl.fits/NS.1_64_flux_tbl.fits" := Fits ∅ (Some table64)]>
             (<["/d/fitstbl/NS.1_12_fluxx_34_flux_tbl.fits" := Fits ∅ (Some table64)]>
                (<["/d/fitstbl/NS.1_nan_65_flux_tbl.fits" := Fits ∅ (Some [nan_row 300 0; nan_row 301 1])]> ∅))))).

Definition world0 : World := {| heap := ∅; log := [] |}.

Definition file63 : string := "/d/fitstbl/NS.1_63_flux_tbl.fits".
Definition c63 : Container := primary_of 63 MNone None table63.

End Examples.

Module Examples_list.

Definition c64 : Container := primary_of 64 MNone None Examples.table64.

(** A world with an empty list of orders at 1 and a list of two orders
    at 2. *)
Definition world : World :=
  {| heap := <[1%positive := []]> (<[2%positive := [Examples.c63; c64]]> ∅); log := [] |}.

(** Paths that [read] accepts: the directory name carries the
    [.flux_tbl.fits] it asks for. *)
Definition dotted63 : string := "/d/tbl.flux_tbl.fits/NS.1_63_flux_tbl.fits".
Definition dotted64 : string := "/d/tbl.flux_tbl.fits/NS.1_64_flux_tbl.fits".

End Examples_list.

Module Examples_normalize.

Definition c65 : Container :=
  primary_of 65 MNone None [Examples.nan_row 300 0; Examples.nan_row 301 1].

(** An order without samples. *)
Definition c_empty : Container := primary_of 69 MNone None [].

(** A list of two orders at 3 whose first order has no flux value that
    is a number, and one at 7 whose first order has no samples. *)
Definition world_nan : World :=
  {| heap := <[3%positive := [c65; Examples.c63]]> (<[7%positive := [c_empty; Examples.c63]]> ∅);
     log := [] |}.

End Examples_normalize.

Module Examples_median.

(** An order whose median differs from that of [Examples.table63], an
    order of negative flux values, an order with an even number of flux
    values that are numbers, and an order of two large flux values of
    opposite sign. *)
Definition table66 : list Row :=
  [Examples.row 400 10 1 1 0; Examples.row 401 40 1 1 1; Examples.row 402 20 1 1 2].
Definition table_negative : list Row :=
  [Examples.row 500 (-3) 1 1 0; Examples.row 501 (-2) 1 1 1; Examples.row 502 (-1) 1 1 2].
Definition table_even : list Row :=
  [Examples.nan_row 600 0; Examples.row 601 1 1 1 1; Examples.row 602 5 1 1 2;
   Examples.row 603 2 1 1 3; Examples.nan_row 604 4; Examples.row 605 3 1 1 5].

Definition table_opposite : list Row :=
  [Examples.row 700 (-6755399441055743) 1 1 0; Examples.row 701 6755399441055746 1 1 1].

Definition c66 : Container := primary_of 66 MNone None table66.
Definition c_negative : Container := primary_of 67 MNone None table_negative.
Definition c_even : Container := primary_of 68 MNone None table_even.
Definition c_opposite : Container := primary_of 70 MNone None table_opposite.

(** Four lists of two orders each, at 4, 5, 6 and 8. *)
Definition world : World :=
  {| heap := <[4%positive := [Examples.c63; c66]]>
               (<[5%positive := [c_negative; c66]]>
                  (<[6%positive := [c_even; c66]]>
                     (<[8%positive := [c_opposite; c66]]> ∅)));
     log := [] |}.

(** Two tables under paths that [read] accepts. *)
Definition dotted63 : string := "/d/tbl.flux_tbl.fits/NS.1_63_flux_tbl.fits".
Definition dotted66 : string := "/d/tbl.flux_tbl.fits/NS.1_66_flux_tbl.fits".

Definition fs : gmap string File :=
  <[dotted63 := Fits ∅ (Some Examples.table63)]>
    (<[dotted66 := Fits ∅ (Some table66)]> ∅).

End Examples_median.

Module Examples_header.

(** The primary header of a companion file, with one axis. *)
Definition header70 : gmap string HeaderValue :=
  <["NAXIS" := HInt 1]>
    (<["RA" := HFloat (Numpy.of_Z 12)]>
       (<["DEC" := HFloat (Numpy.of_Z 30)]> (<["OBJECT" := HStr "star"]> ∅))).

Definition file70 : string := "/d/fitstbl/NS.2_70_flux_tbl.fits".

(** A table with its companion, a table whose companion is no FITS file,
    a FITS file without table extension and a file that is no FITS
    file. *)
Definition fs : gmap string File :=
  <[file70 := Fits ∅ (Some Examples.table64)]>
    (<["/d/fits/NS.2_70_flux.fits" := Fits header70 None]>
       (<["/e/fitstbl/NS.3_71_flux_tbl.fits" := Fits ∅ (Some Examples.table64)]>
          (<["/e/fits/NS.3_71_flux.fits" := NotFits]>
             (<["/d/fitstbl/NS.2_72_flux_tbl.fits" := Fits ∅ None]>
                (<["/d/fitstbl/NS.2_73_flux_tbl.fits" := NotFits]> ∅))))).

Definition c70 : Container :=
  primary_of 70 (MHeader header70) (Some {| wcs_header := header70 |}) Examples.table64.

(** Conversions that keep the card and name the unit. *)
Definition conversions : HeaderConversions (HeaderValue * string) HeaderValue :=
  {| times_unit card unit := Ok (card, unit); time_of_mjd mjd := Ok mjd |}.

End Examples_header.

Module Examples_batch.

(** Element methods to run the loops with: dropping the NaN flux values,
    keeping a container as it is, and dropping the first and the last
    sample of a container that has at least three. *)
Definition methods : EchelleMethods := {|
  base_remove_nans c :=
    Ok (Spectrum (spectral_axis c) (filter (λ x, Numpy.isnan x = false) (flux c))
                 None None (wcs c) (meta c));
  base_remove_outliers _ c := Ok c;
  base_trim_edges c :=
    if (length (flux c) <? 3)%nat then Err IndexError
    else Ok (Spectrum (take (length (flux c) - 2) (drop 1 (spectral_axis c)))
                      (take (length (flux c) - 2) (drop 1 (flux c)))
                      None None (wcs c) (meta c)) |}.

Definition trimmed63 : Container :=
  Spectrum [Numpy.of_Z 101] [Numpy.of_Z 3] None None None (meta Examples.c63).

End Examples_batch.

(** * Properties *)

(** ** What a successful file construction returns *)

Section Loader.

Import KeckNIRSPECSpectrum.

Context (fs : gmap string File).

Lemma init_file_Ok file c :
  init_file fs file = Ok c →
  ∃ m hdr w h rows,
    String.eqb (PyStr.take 3 (basename file)) "NS." = true ∧
    PyStr.contains "_flux_tbl.fits" (basename file) = true ∧
    PyStr.int (PyStr.suffix 2 (file_stem file)) = Some m ∧
    fs !! file = Some (Fits h (Some rows)) ∧
    c = primary_of m hdr w rows.
Proof.
  unfold init_file, file_stem, basename.
  cbv [mbind Result_bind assert from_option fits_open exists_].
  destruct (String.eqb _ "NS.") eqn:Hns; [|discriminate].
  destruct (PyStr.contains "_flux_tbl.fits" _) eqn:Htbl; [|discriminate].
  destruct (PyStr.int _) as [m|] eqn:Hint; [|discriminate].
  case_bool_decide as Hex; [|discriminate].
  destruct (fs !! file) as [[h [rows|]|]|] eqn:Hfile; try discriminate.
  cbn [snd fst].
  case_bool_decide as Hcomp.
  - destruct (fs !! PyStr.replace _ _ _) as [[h' t'|]|] eqn:Hfull; try discriminate.
    cbn [snd fst]. intros [= <-].
    exists m, (MHeader h'), (Some {| wcs_header := h' |}), h, rows. done.
  - intros [= <-]. exists m, MNone, None, h, rows. done.
Qed.

End Loader.

(** ** The container built from a flux table *)

Section Container_facts.

Import KeckNIRSPECSpectrum.

Context (fs : gmap string File).

Lemma mask_of_length (f u : list float64) :
  length f = length u → length (mask_of f u) = length f.
Proof. intros H. unfold mask_of. rewrite length_zip_with. lia. Qed.

Lemma mask_of_lookup (f u : list float64) i x y :
  f !! i = Some x → u !! i = Some y →
  mask_of f u !! i = Some (Numpy.isnan x || Numpy.isnan y || Numpy.leb y Numpy.zero).
Proof.
  intros Hx Hy. unfold mask_of. rewrite lookup_zip_with, Hx. simpl. by rewrite Hy.
Qed.

Lemma meta_dict_flat m hdr rows : meta_dict m hdr rows !! "flat" = None.
Proof. unfold meta_dict. by simplify_map_eq. Qed.

Lemma meta_dict_sky m hdr rows : meta_dict m hdr rows !! "sky" = None.
Proof. unfold meta_dict. by simplify_map_eq. Qed.

Lemma meta_dict_pipeline m hdr rows :
  meta_dict m hdr rows !! "pipeline" = Some (MStr "NSDRP").
Proof. unfold meta_dict. by simplify_map_eq. Qed.

Lemma meta_dict_m m hdr rows : meta_dict m hdr rows !! "m" = Some (MInt m).
Proof. unfold meta_dict. by simplify_map_eq. Qed.

End Container_facts.

Lemma init_file63 :
  KeckNIRSPECSpectrum.init_file Examples.fs Examples.file63 = Ok Examples.c63.
Proof. vm_compute. reflexivity. Qed.

(** ** The claims about one container *)

(** C2. For every container constructed from a flux-table file, the mask is
    true at exactly the sample indices where the flux is NaN, or the
    uncertainty is NaN, or the uncertainty is less than or equal to zero,
    and false at every other index: the mask has one entry per sample, and
    each entry is that disjunction. *)
Theorem C2_mask_marks_invalid_samples (fs : gmap string File) (file : string) (c : Container) :
  KeckNIRSPECSpectrum.init_file fs file = Ok c →
  ∃ msk unc,
    mask c = Some msk ∧ uncertainty c = Some unc ∧
    length msk = length (flux c) ∧ length unc = length (flux c) ∧
    ∀ i, (i < length (flux c))%nat →
      ∃ f u, flux c !! i = Some f ∧ unc !! i = Some u ∧
        msk !! i = Some (Numpy.isnan f || Numpy.isnan u || Numpy.leb u Numpy.zero).
Proof.
  intros (m & hdr & w & h & rows & _ & _ & _ & _ & ->)%init_file_Ok.
  eexists _, _. cbn [mask uncertainty flux primary_of].
  repeat split; try reflexivity.
  - apply mask_of_length. by rewrite !length_map.
  - by rewrite !length_map.
  - intros i Hi.
    destruct (lookup_lt_is_Some_2 (map flux_cnts rows) i Hi) as [f Hf].
    destruct (lookup_lt_is_Some_2 (map noise_cnts rows) i) as [u Hu].
    { rewrite length_map in *. lia. }
    exists f, u. split; [done|]. split; [done|]. by apply mask_of_lookup.
Qed.

Lemma C2_mask_witness :
  ∃ msk unc,
    mask Examples.c63 = Some msk ∧ uncertainty Examples.c63 = Some unc ∧
    length msk = length (flux Examples.c63) ∧ length unc = length (flux Examples.c63) ∧
    ∀ i, (i < length (flux Examples.c63))%nat →
      ∃ f u, flux Examples.c63 !! i = Some f ∧ unc !! i = Some u ∧
        msk !! i = Some (Numpy.isnan f || Numpy.isnan u || Numpy.leb u Numpy.zero).
Proof.
  apply (C2_mask_marks_invalid_samples Examples.fs Examples.file63 Examples.c63).
  vm_compute. reflexivity.
Defined.

Lemma primary_has_length m hdr w rows : has_length (primary_of m hdr w rows) (length rows).
Proof.
  unfold has_length, primary_of, wavelength. cbn.
  rewrite mask_of_length by (by rewrite !length_map).
  by rewrite !length_map.
Qed.

Lemma sky_has_length m hdr rows : has_length (sky_of m hdr rows) (length rows).
Proof.
  unfold has_length, sky_of, wavelength. cbn.
  rewrite mask_of_length by (by rewrite !length_map).
  by rewrite !length_map.
Qed.

Lemma primary_sky m hdr w rows :
  KeckNIRSPECSpectrum.sky (primary_of m hdr w rows) = Ok (MSpectrum (sky_of m hdr rows)).
Proof.
  unfold KeckNIRSPECSpectrum.sky, KeckNIRSPECSpectrum.meta_getitem, primary_of. cbn.
  by rewrite lookup_insert_eq.
Qed.

(** C3. For every container constructed from a valid flux-table file with
    N table rows, the wavelength, flux, uncertainty and mask sequences all
    have length N, and so have those of the nested sky container. *)
Theorem C3_parallel_sequences_have_row_count (fs : gmap string File) (file : string) (c : Container) :
  KeckNIRSPECSpectrum.init_file fs file = Ok c →
  ∃ hdr rows s,
    fs !! file = Some (Fits hdr (Some rows)) ∧
    has_length c (length rows) ∧
    KeckNIRSPECSpectrum.sky c = Ok (MSpectrum s) ∧
    has_length s (length rows).
Proof.
  intros (m & hdr & w & h & rows & _ & _ & _ & Hfile & ->)%init_file_Ok.
  exists h, rows, (sky_of m hdr rows).
  split; [done|]. split; [apply primary_has_length|].
  split; [apply primary_sky | apply sky_has_length].
Qed.

Lemma C3_lengths_witness :
  ∃ hdr rows s,
    Examples.fs !! Examples.file63 = Some (Fits hdr (Some rows)) ∧
    has_length Examples.c63 (length rows) ∧
    KeckNIRSPECSpectrum.sky Examples.c63 = Ok (MSpectrum s) ∧
    has_length s (length rows).
Proof.
  apply (C3_parallel_sequences_have_row_count Examples.fs Examples.file63 Examples.c63).
  vm_compute. reflexivity.
Defined.

(** C9. For every container constructed from a file by this loader,
    reading the [flat] property fails with a key-lookup error: the loader
    never stores a [flat] entry. *)
Theorem C9_flat_is_never_populated (fs : gmap string File) (file : string) (c : Container) :
  KeckNIRSPECSpectrum.init_file fs file = Ok c →
  meta c !! "flat" = None ∧ KeckNIRSPECSpectrum.flat c = Err (KeyError "flat").
Proof.
  intros (m & hdr & w & h & rows & _ & _ & _ & _ & ->)%init_file_Ok.
  assert (meta (primary_of m hdr w rows) !! "flat" = None) as H.
  { unfold primary_of. cbn. rewrite lookup_insert_ne by done. apply meta_dict_flat. }
  split; [done|].
  unfold KeckNIRSPECSpectrum.flat, KeckNIRSPECSpectrum.meta_getitem. by rewrite H.
Qed.

Lemma C9_flat_witness :
  meta Examples.c63 !! "flat" = None ∧ KeckNIRSPECSpectrum.flat Examples.c63 = Err (KeyError "flat").
Proof.
  apply (C9_flat_is_never_populated Examples.fs Examples.file63 Examples.c63).
  vm_compute. reflexivity.
Defined.

(** C10. For every container constructed from a file, the sky spectra nest
    exactly one level deep: the primary's [sky] is a container whose own
    metadata has no [sky] key, so reading [sky] on it fails with a
    key-lookup error, while [pipeline] and [m] on the sky container succeed
    with the same values as on the primary. *)
Theorem C10_sky_nests_one_level (fs : gmap string File) (file : string) (c : Container) :
  KeckNIRSPECSpectrum.init_file fs file = Ok c →
  ∃ s p m,
    KeckNIRSPECSpectrum.sky c = Ok (MSpectrum s) ∧
    meta s !! "sky" = None ∧
    KeckNIRSPECSpectrum.sky s = Err (KeyError "sky") ∧
    KeckNIRSPECSpectrum.pipeline s = Ok p ∧ KeckNIRSPECSpectrum.pipeline c = Ok p ∧
    KeckNIRSPECSpectrum.meta_getitem s "m" = Ok m ∧
    KeckNIRSPECSpectrum.meta_getitem c "m" = Ok m.
Proof.
  intros (m & hdr & w & h & rows & _ & _ & _ & _ & ->)%init_file_Ok.
  exists (sky_of m hdr rows), (MStr "NSDRP"), (MInt m).
  split; [apply primary_sky|].
  unfold KeckNIRSPECSpectrum.sky, KeckNIRSPECSpectrum.pipeline,
    KeckNIRSPECSpectrum.meta_getitem, primary_of, sky_of. cbn.
  rewrite !lookup_insert_ne by done.
  by rewrite meta_dict_sky, meta_dict_pipeline, meta_dict_m.
Qed.

Lemma C10_sky_witness :
  ∃ s p m,
    KeckNIRSPECSpectrum.sky Examples.c63 = Ok (MSpectrum s) ∧
    meta s !! "sky" = None ∧
    KeckNIRSPECSpectrum.sky s = Err (KeyError "sky") ∧
    KeckNIRSPECSpectrum.pipeline s = Ok p ∧ KeckNIRSPECSpectrum.pipeline Examples.c63 = Ok p ∧
    KeckNIRSPECSpectrum.meta_getitem s "m" = Ok m ∧
    KeckNIRSPECSpectrum.meta_getitem Examples.c63 "m" = Ok m.
Proof.
  apply (C10_sky_nests_one_level Examples.fs Examples.file63 Examples.c63).
  vm_compute. reflexivity.
Defined.

Lemma sky_subtract_unforced P c w :
  KeckNIRSPECSpectrum.sky_subtract P c false w = (Ok c, add_log w ERROR already_subtracted).
Proof. reflexivity. Qed.

(** C5. For every container, [sky_subtract()] without [force] is a no-op:
    no error is raised, the container returned is the input itself (so its
    flux, mask and uncertainty are value for value the input's), the heap
    is untouched (one error record is logged), and calling it again on the
    result returns the same container. *)
Theorem C5_sky_subtract_without_force_is_noop (P : Propagation) (c : Container) (w : World) :
  ∃ c' w',
    KeckNIRSPECSpectrum.sky_subtract P c false w = (Ok c', w') ∧
    c' = c ∧ flux c' = flux c ∧ mask c' = mask c ∧ uncertainty c' = uncertainty c ∧
    heap w' = heap w ∧ log w' = log w ++ [(ERROR, already_subtracted)] ∧
    fst (KeckNIRSPECSpectrum.sky_subtract P c' false w') = Ok c'.
Proof.
  exists c, (add_log w ERROR already_subtracted).
  rewrite !sky_subtract_unforced. done.
Qed.

Lemma sky_subtract_forced P c s w r :
  KeckNIRSPECSpectrum.sky c = Ok (MSpectrum s) →
  subtract P c s = r →
  KeckNIRSPECSpectrum.sky_subtract P c true w = (r, add_log w WARNING forced_subtraction).
Proof.
  intros Hs <-. unfold KeckNIRSPECSpectrum.sky_subtract.
  cbv [mbind M_bind emit lift]. by rewrite Hs.
Qed.

(** C4. For every container constructed from a file,
    [sky_subtract(force=True)] returns a container whose flux is, sample by
    sample (so at every unmasked sample), the primary flux minus the flux
    of the sky container, and whose metadata is the first operand's. *)
Theorem C4_forced_sky_subtract_subtracts_sky
    (P : Propagation) (fs : gmap string File) (file : string) (c : Container) (w : World) :
  KeckNIRSPECSpectrum.init_file fs file = Ok c →
  ∃ s r,
    KeckNIRSPECSpectrum.sky c = Ok (MSpectrum s) ∧
    KeckNIRSPECSpectrum.sky_subtract P c true w = (Ok r, add_log w WARNING forced_subtraction) ∧
    length (flux r) = length (flux c) ∧
    (∀ i, (i < length (flux c))%nat →
       ∃ f g, flux c !! i = Some f ∧ flux s !! i = Some g ∧
              flux r !! i = Some (Numpy.sub f g)) ∧
    meta r = meta c.
Proof.
  intros (m & hdr & wc & h & rows & _ & _ & _ & _ & ->)%init_file_Ok.
  set (c := primary_of m hdr wc rows). set (s := sky_of m hdr rows).
  assert (length (flux c) = length (flux s)) as Hlen.
  { unfold c, s, primary_of, sky_of. cbn. by rewrite !length_map. }
  eexists s, _. split; [apply primary_sky|].
  split.
  { apply (sky_subtract_forced _ _ s); [apply primary_sky|].
    unfold subtract. by rewrite bool_decide_eq_true_2. }
  split; [|split; [|done]].
  - cbn [flux]. rewrite length_zip_with. fold (flux c) (flux s). lia.
  - intros i Hi.
    destruct (lookup_lt_is_Some_2 (flux c) i Hi) as [f Hf].
    destruct (lookup_lt_is_Some_2 (flux s) i) as [g Hg]; [lia|].
    exists f, g. split; [done|]. split; [done|].
    cbn [flux]. fold (flux c) (flux s).
    apply lookup_zip_with_Some. by exists f, g.
Qed.

Lemma C4_forced_witness :
  ∃ s r,
    KeckNIRSPECSpectrum.sky Examples.c63 = Ok (MSpectrum s) ∧
    KeckNIRSPECSpectrum.sky_subtract keep_first Examples.c63 true Examples.world0
      = (Ok r, add_log Examples.world0 WARNING forced_subtraction) ∧
    length (flux r) = length (flux Examples.c63) ∧
    (∀ i, (i < length (flux Examples.c63))%nat →
       ∃ f g, flux Examples.c63 !! i = Some f ∧ flux s !! i = Some g ∧
              flux r !! i = Some (Numpy.sub f g)) ∧
    meta r = meta Examples.c63.
Proof.
  apply (C4_forced_sky_subtract_subtracts_sky keep_first Examples.fs Examples.file63).
  vm_compute. reflexivity.
Defined.

Example forced_sky_subtract_flux :
  ∃ r, fst (KeckNIRSPECSpectrum.sky_subtract keep_first Examples.c63 true Examples.world0) = Ok r ∧
       flux r = [Numpy.of_Z 4; Numpy.of_Z 2; Numpy.of_Z 5].
Proof. eexists. split; vm_compute; reflexivity. Qed.

(** ** The monad and list objects *)

Lemma M_bind_Ok {A B} (m : M A) (f : A → M B) w a w' :
  m w = (Ok a, w') → (m ≫= f) w = f a w'.
Proof. intros H. unfold mbind, M_bind. by rewrite H. Qed.

Lemma M_bind_Err {A B} (m : M A) (f : A → M B) w e w' :
  m w = (Err e, w') → (m ≫= f) w = (Err e, w').
Proof. intros H. unfold mbind, M_bind. by rewrite H. Qed.

Lemma emit_spec lvl msg w : emit lvl msg w = (Ok (), add_log w lvl msg).
Proof. reflexivity. Qed.

Section List_objects.

Context (self : positive) (l : list Container) (w : World).
Hypothesis Hself : heap w !! self = Some l.

Lemma len_spec : len self w = (Ok (length l), w).
Proof using Hself. unfold len. by rewrite Hself. Qed.

Lemma getitem_spec i c : l !! i = Some c → getitem self i w = (Ok c, w).
Proof using Hself.
  intros Hi. unfold getitem. rewrite Hself. cbn. by rewrite Hi.
Qed.

Lemma getitem_out_of_range i : l !! i = None → getitem self i w = (Err IndexError, w).
Proof using Hself.
  intros Hi. unfold getitem. rewrite Hself. cbn. by rewrite Hi.
Qed.

Lemma comprehension_getitem {A} (f : Container → A) n i0 :
  (i0 + n ≤ length l)%nat →
  comprehension i0 n (λ i, c ← getitem self i; mret (f c)) w
  = (Ok (map f (take n (drop i0 l))), w).
Proof using Hself.
  revert i0. induction n as [|n IH]; intros i0 Hn; [done|].
  destruct (lookup_lt_is_Some_2 l i0) as [c Hc]; [lia|].
  cbn [comprehension]. cbv [mbind M_bind mret M_ret] in *.
  rewrite (getitem_spec _ _ Hc), IH by lia.
  by rewrite (drop_S _ _ _ Hc).
Qed.

Lemma comprehension_all {A} (f : Container → A) :
  comprehension 0 (length l) (λ i, c ← getitem self i; mret (f c)) w = (Ok (map f l), w).
Proof using Hself.
  rewrite comprehension_getitem by lia. by rewrite drop_0, firstn_all.
Qed.

End List_objects.

Lemma length_concat_map {A} (f : Container → list A) (l : list Container) :
  length (concat (map f l)) = sum_list (map (λ c, length (f c)) l).
Proof. induction l as [|c l IH]; [done|]. cbn. rewrite length_app. by rewrite IH. Qed.

Lemma stitch_spec self l w :
  heap w !! self = Some l →
  KeckNIRSPECSpectrumList.stitch self w
  = (match l with [] => Err ValueError | _ => Ok (stitched l) end,
     add_log w WARNING "Experimental method").
Proof.
  intros Hself. unfold KeckNIRSPECSpectrumList.stitch.
  set (w' := add_log w WARNING "Experimental method").
  assert (heap w' !! self = Some l) as Hself' by done.
  rewrite (M_bind_Ok _ _ _ _ _ (emit_spec _ _ _)). fold w'.
  rewrite (M_bind_Ok _ _ _ _ _ (len_spec _ _ _ Hself')).
  rewrite (M_bind_Ok _ _ _ _ _ (comprehension_all _ _ _ Hself' wavelength)).
  destruct l as [|c l]; [done|].
  rewrite (M_bind_Ok (lift _) _ w' (concat (map wavelength (c :: l))) w') by done.
  rewrite (M_bind_Ok _ _ _ _ _ (len_spec _ _ _ Hself')).
  rewrite (M_bind_Ok _ _ _ _ _ (comprehension_all _ _ _ Hself' flux)).
  rewrite (M_bind_Ok (lift _) _ w' (concat (map flux (c :: l))) w') by done.
  done.
Qed.

(** ** The claims about the list of orders *)

(** C7, as stated, fails on the empty list of orders: [np.hstack] refuses
    an empty sequence of arrays, so [stitch] raises instead of returning a
    container of length zero. *)
Lemma C7_stitch_of_no_orders_raises :
  heap Examples_list.world !! 1%positive = Some [] ∧
  fst (KeckNIRSPECSpectrumList.stitch 1 Examples_list.world) = Err ValueError.
Proof. split; vm_compute; reflexivity. Qed.

(** C7, amended. For every non-empty list of orders with lengths
    N1, ..., Nk, [stitch()] returns a single container whose wavelength
    sequence is the concatenation of the elements' wavelength sequences in
    list order, whose flux sequence is likewise the concatenation of their
    flux sequences, each of length N1 + ... + Nk, and which carries no
    uncertainty, no mask, no world coordinates and no metadata. *)
Theorem C7_stitch_concatenates (self : positive) (l : list Container) (w : World) :
  heap w !! self = Some l → l ≠ [] →
  ∃ r,
    KeckNIRSPECSpectrumList.stitch self w = (Ok r, add_log w WARNING "Experimental method") ∧
    wavelength r = concat (map wavelength l) ∧
    flux r = concat (map flux l) ∧
    length (wavelength r) = sum_list (map (λ c, length (wavelength c)) l) ∧
    length (flux r) = sum_list (map (λ c, length (flux c)) l) ∧
    uncertainty r = None ∧ mask r = None ∧ wcs r = None ∧ meta r = ∅.
Proof.
  intros Hself Hne. exists (stitched l).
  rewrite (stitch_spec _ _ _ Hself).
  split; [by destruct l|].
  unfold stitched, wavelength. cbn.
  by rewrite !length_concat_map.
Qed.

Lemma C7_stitch_witness :
  ∃ r,
    KeckNIRSPECSpectrumList.stitch 2 Examples_list.world
      = (Ok r, add_log Examples_list.world WARNING "Experimental method") ∧
    wavelength r = concat (map wavelength [Examples.c63; Examples_list.c64]) ∧
    flux r = concat (map flux [Examples.c63; Examples_list.c64]) ∧
    length (wavelength r) = sum_list (map (λ c, length (wavelength c)) [Examples.c63; Examples_list.c64]) ∧
    length (flux r) = sum_list (map (λ c, length (flux c)) [Examples.c63; Examples_list.c64]) ∧
    uncertainty r = None ∧ mask r = None ∧ wcs r = None ∧ meta r = ∅.
Proof.
  apply (C7_stitch_concatenates 2 [Examples.c63; Examples_list.c64] Examples_list.world).
  - vm_compute. reflexivity.
  - discriminate.
Defined.

Example stitch_two_orders :
  ∃ r, fst (KeckNIRSPECSpectrumList.stitch 2 Examples_list.world) = Ok r ∧
       wavelength r = map Numpy.of_Z [100; 101; 102; 200; 201] ∧
       flux r = map Numpy.of_Z [6; 3; 9; 8; 4].
Proof. eexists. split; [|split]; vm_compute; reflexivity. Qed.

(** *** [read] *)

Lemma valid_path_Ok fs f :
  valid_path fs f →
  PyStr.contains ".flux_tbl.fits" f = true ∧ ∃ c, KeckNIRSPECSpectrum.init_file fs f = Ok c.
Proof.
  unfold valid_path, path_error.
  destruct (PyStr.contains _ f); [|discriminate].
  destruct (KeckNIRSPECSpectrum.init_file fs f) as [c|e]; [eauto|discriminate].
Qed.

Lemma read_loop_valid fs files n : ∀ i list_out,
  (i + n ≤ length files)%nat →
  Forall (valid_path fs) (take n (drop i files)) →
  ∃ cs, KeckNIRSPECSpectrumList.read_loop fs files i n list_out = Ok (list_out ++ cs) ∧
        Forall2 (λ f c, KeckNIRSPECSpectrum.init_file fs f = Ok c) (take n (drop i files)) cs.
Proof.
  induction n as [|n IH]; intros i list_out Hn Hall.
  { exists []. by rewrite app_nil_r. }
  destruct (lookup_lt_is_Some_2 files i) as [f Hf]; [lia|].
  rewrite (drop_S _ _ _ Hf) in Hall |- *. cbn [take] in Hall |- *.
  apply Forall_cons in Hall as [Hv Hall].
  destruct (valid_path_Ok _ _ Hv) as [Hc [c Hinit]].
  destruct (IH (S i) (list_out ++ [c])) as (cs & Hloop & Hcs); [lia|done|].
  exists (c :: cs). split; [|by constructor].
  cbn [KeckNIRSPECSpectrumList.read_loop]. rewrite Hf. cbn.
  rewrite Hc. cbn. rewrite Hinit. cbn.
  by rewrite Hloop, <- app_assoc.
Qed.

Lemma read_loop_invalid fs files e n : ∀ i k f list_out,
  (i ≤ k < i + n)%nat →
  files !! k = Some f →
  path_error fs f = Some e →
  (∀ j g, (i ≤ j < k)%nat → files !! j = Some g → valid_path fs g) →
  KeckNIRSPECSpectrumList.read_loop fs files i n list_out = Err e.
Proof.
  induction n as [|n IH]; intros i k f list_out Hk Hf He Hbefore; [lia|].
  cbn [KeckNIRSPECSpectrumList.read_loop].
  destruct (decide (k = i)) as [->|Hne].
  - rewrite Hf. cbn. unfold path_error in He.
    destruct (PyStr.contains _ f); cbn; [|by simplify_eq].
    destruct (KeckNIRSPECSpectrum.init_file fs f); cbn; by simplify_eq.
  - destruct (files !! i) as [g|] eqn:Hg.
    2:{ apply lookup_ge_None in Hg. apply lookup_lt_Some in Hf. lia. }
    destruct (valid_path_Ok fs g) as [Hc [c Hinit]]; [apply (Hbefore i); [lia|done]|].
    cbn. rewrite Hc. cbn. rewrite Hinit. cbn.
    apply (IH (S i) k f); [lia|done|done|].
    intros j g' Hj. apply Hbefore. lia.
Qed.

(** C1. For every list of K valid flux-table file paths, [read] returns a
    new list object of exactly K containers, the i-th one constructed from
    the i-th path; for every list with an invalid path, [read] raises what
    the first invalid path raises and leaves the world as it was: no list
    object is made. A path is valid when it passes the assertion of [read]
    and the constructor accepts it. *)
Theorem C1_read_all_or_nothing (fs : gmap string File) (files : list string) (w : World) :
  ((∀ f, f ∈ files → valid_path fs f) →
   ∃ r cs,
     KeckNIRSPECSpectrumList.read fs files w
       = (Ok r, {| heap := <[r := cs]> (heap w); log := log w |}) ∧
     heap w !! r = None ∧
     length cs = length files ∧
     ∀ i f, files !! i = Some f →
       ∃ c, cs !! i = Some c ∧ KeckNIRSPECSpectrum.init_file fs f = Ok c) ∧
  (∀ k f e,
     files !! k = Some f →
     path_error fs f = Some e →
     (∀ j g, (j < k)%nat → files !! j = Some g → valid_path fs g) →
     KeckNIRSPECSpectrumList.read fs files w = (Err e, w)).
Proof.
  split.
  - intros Hall.
    destruct (read_loop_valid fs files (length files) 0 []) as (cs & Hloop & Hcs).
    { lia. } { rewrite drop_0, firstn_all. by apply Forall_forall. }
    rewrite drop_0, firstn_all in Hcs. cbn [app] in Hloop.
    exists (fresh (dom (heap w))), cs.
    split; [|split; [|split]].
    + unfold KeckNIRSPECSpectrumList.read.
      by rewrite (M_bind_Ok (lift _) _ w cs w) by (unfold lift; by rewrite Hloop).
    + apply not_elem_of_dom, is_fresh.
    + symmetry. by eapply Forall2_length.
    + intros i f Hf.
      destruct (Forall2_lookup_l _ _ _ _ _ Hcs Hf) as (c & Hc & Hinit). eauto.
  - intros k f e Hf He Hbefore.
    unfold KeckNIRSPECSpectrumList.read.
    apply M_bind_Err. unfold lift. f_equal.
    apply (read_loop_invalid fs files e (length files) 0 k f); [|done|done|].
    + apply lookup_lt_Some in Hf. lia.
    + intros j g Hj. apply Hbefore. lia.
Qed.

Lemma C1_read_witness :
  (∃ r cs,
     KeckNIRSPECSpectrumList.read Examples.fs [Examples_list.dotted63; Examples_list.dotted64] Examples.world0
       = (Ok r, {| heap := <[r := cs]> (heap Examples.world0); log := log Examples.world0 |}) ∧
     heap Examples.world0 !! r = None ∧
     length cs = length [Examples_list.dotted63; Examples_list.dotted64] ∧
     ∀ i f, [Examples_list.dotted63; Examples_list.dotted64] !! i = Some f →
       ∃ c, cs !! i = Some c ∧ KeckNIRSPECSpectrum.init_file Examples.fs f = Ok c) ∧
  KeckNIRSPECSpectrumList.read Examples.fs
    [Examples_list.dotted63; "/d/tbl.flux_tbl.fits/NS.1_6x_flux_tbl.fits"; Examples_list.dotted64]
    Examples.world0 = (Err ValueError, Examples.world0).
Proof.
  split.
  - apply (proj1 (C1_read_all_or_nothing Examples.fs
                    [Examples_list.dotted63; Examples_list.dotted64] Examples.world0)).
    intros f Hf.
    apply elem_of_cons in Hf as [->|Hf]; [vm_compute; reflexivity|].
    apply elem_of_cons in Hf as [->|Hf]; [vm_compute; reflexivity|].
    by apply elem_of_nil in Hf.
  - apply (proj2 (C1_read_all_or_nothing Examples.fs _ Examples.world0)
             1%nat "/d/tbl.flux_tbl.fits/NS.1_6x_flux_tbl.fits" ValueError).
    + reflexivity.
    + vm_compute. reflexivity.
    + intros j g Hj Hg. destruct j as [|j]; [|lia].
      injection Hg as <-. vm_compute. reflexivity.
Defined.

(** The assertion of [read] asks for [.flux_tbl.fits], with a dot, where
    the constructor asks for [_flux_tbl.fits] in the base name: a path
    named as the pipeline names its tables is accepted by the constructor
    and refused by [read]. *)
Example read_refuses_pipeline_name :
  KeckNIRSPECSpectrum.init_file Examples.fs Examples.file63 = Ok Examples.c63 ∧
  KeckNIRSPECSpectrumList.read Examples.fs [Examples.file63] Examples.world0
  = (Err (AssertionError ""), Examples.world0).
Proof. split; vm_compute; reflexivity. Qed.

(** ** The order number *)

Lemma append_empty_r (s : string) : s +:+ "" = s.
Proof.
  induction s as [|c s IH]; [done|].
  change (String c (s +:+ "") = String c s). by rewrite IH.
Qed.

Lemma append_String_assoc (s : string) c t : (s +:+ String c "") +:+ t = s +:+ String c t.
Proof.
  induction s as [|c' s IH]; [done|].
  change (String c' ((s +:+ String c "") +:+ t) = String c' (s +:+ String c t)).
  by rewrite IH.
Qed.

(** The first piece of a split is what stands before the first match. *)
Lemma split_go_first sep s : ∀ cur i,
  PyStr.find sep s = Some i →
  PyStr.first (PyStr.split_go sep s 0 cur) = cur +:+ PyStr.take i s.
Proof.
  induction s as [|c s IH]; intros cur i.
  - intros _. assert (PyStr.take i "" = "") as -> by (by destruct i).
    cbn [PyStr.split_go PyStr.first hd]. by rewrite append_empty_r.
  - cbn [PyStr.find PyStr.split_go].
    destruct (String.prefix sep (String c s)).
    + intros [= <-]. cbn [PyStr.take PyStr.first hd]. by rewrite append_empty_r.
    + destruct (PyStr.find sep s) as [i'|] eqn:Hfind; [|discriminate].
      intros [= <-]. rewrite (IH _ i') by done.
      cbn [PyStr.take]. apply append_String_assoc.
Qed.

Lemma split_first sep s i :
  PyStr.find sep s = Some i → PyStr.first (PyStr.split sep s) = PyStr.take i s.
Proof. intros H. unfold PyStr.split. by rewrite (split_go_first _ _ _ i). Qed.

Lemma prefix_trans p : ∀ sub s,
  String.prefix p sub = true → String.prefix sub s = true → String.prefix p s = true.
Proof.
  induction p as [|a p IH]; intros sub s; [by destruct s|].
  destruct sub as [|b sub]; [done|]. destruct s as [|c s]; [done|].
  cbn. destruct (ascii_dec a b) as [->|]; [|done].
  destruct (ascii_dec b c) as [->|]; [|done]. apply IH.
Qed.

(** Where a string occurs, each of its prefixes occurs too. *)
Lemma find_prefix p sub s :
  String.prefix p sub = true → is_Some (PyStr.find sub s) → is_Some (PyStr.find p s).
Proof.
  intros Hp. induction s as [|c s IH]; cbn [PyStr.find].
  - destruct (String.prefix sub "") eqn:Hsub; [|by intros [? [=]]].
    by rewrite (prefix_trans _ _ _ Hp Hsub).
  - destruct (String.prefix sub (String c s)) eqn:Hsub.
    + by rewrite (prefix_trans _ _ _ Hp Hsub).
    + destruct (String.prefix p (String c s)); [done|].
      intros [i Hi]. destruct (PyStr.find sub s); [|done].
      destruct IH as [j ->]; [done|]. by eexists.
Qed.

(** C8, as stated, fails when [_flux] occurs in the base name before
    [_flux_tbl]: the code cuts the stem at the first [_flux]. *)
Lemma C8_order_number_before_earlier_flux :
  ∃ c, KeckNIRSPECSpectrum.init_file Examples.fs "/d/fitstbl/NS.1_12_fluxx_34_flux_tbl.fits" = Ok c ∧
       meta c !! "m" = Some (MInt 12) ∧
       stem_before_flux_tbl "NS.1_12_fluxx_34_flux_tbl.fits" = "NS.1_12_fluxx_34" ∧
       PyStr.int (PyStr.suffix 2 (stem_before_flux_tbl "NS.1_12_fluxx_34_flux_tbl.fits")) = Some 34.
Proof. eexists. repeat split; vm_compute; reflexivity. Qed.

Lemma init_file_not_numeric fs file :
  PyStr.int (PyStr.suffix 2 (file_stem file)) = None →
  ∃ e, KeckNIRSPECSpectrum.init_file fs file = Err e ∧
       (e = ValueError ∨ ∃ msg, e = AssertionError msg).
Proof.
  intros Hint. unfold KeckNIRSPECSpectrum.init_file.
  fold (basename file). fold (file_stem file). rewrite Hint.
  cbv [mbind Result_bind assert from_option].
  destruct (String.eqb _ _); [|eauto].
  destruct (PyStr.contains _ _); eauto.
Qed.

(** C8, amended. For every container constructed from a file, the metadata
    value [m] is the integer that [int()] reads from the last two
    characters of the part of the base name that precedes its first
    [_flux]; that part is the stem preceding [_flux_tbl] whenever the
    first [_flux] of the base name is the one of [_flux_tbl]; and
    construction fails when [int()] rejects those two characters. *)
Theorem C8_order_number_from_stem (fs : gmap string File) (file : string) :
  (∀ c, KeckNIRSPECSpectrum.init_file fs file = Ok c →
     ∃ m i,
       meta c !! "m" = Some (MInt m) ∧
       PyStr.find "_flux" (basename file) = Some i ∧
       PyStr.int (PyStr.suffix 2 (PyStr.take i (basename file))) = Some m ∧
       (PyStr.find "_flux_tbl" (basename file) = Some i →
        PyStr.int (PyStr.suffix 2 (stem_before_flux_tbl (basename file))) = Some m)) ∧
  (PyStr.int (PyStr.suffix 2 (file_stem file)) = None →
   ∃ e, KeckNIRSPECSpectrum.init_file fs file = Err e) ∧
  (∀ i, PyStr.find "_flux" (basename file) = Some i →
        file_stem file = PyStr.take i (basename file)).
Proof.
  assert (∀ i, PyStr.find "_flux" (basename file) = Some i →
               file_stem file = PyStr.take i (basename file)) as Hstem.
  { intros i Hi. unfold file_stem. by apply split_first. }
  split; [|split; [|done]].
  - intros c (m & hdr & w & h & rows & _ & Htbl & Hint & _ & ->)%init_file_Ok.
    destruct (PyStr.find "_flux" (basename file)) as [i|] eqn:Hfind.
    + exists m, i. rewrite (Hstem i) in Hint by done.
      split; [|split; [done|split; [done|]]].
      * unfold primary_of. cbn. rewrite lookup_insert_ne by done. apply meta_dict_m.
      * intros Hi. unfold stem_before_flux_tbl. by rewrite Hi.
    + apply bool_decide_eq_true in Htbl.
      apply (find_prefix "_flux") in Htbl; [|done].
      rewrite Hfind in Htbl. by destruct Htbl.
  - intros Hint. destruct (init_file_not_numeric fs file Hint) as (e & He & _). eauto.
Qed.

Lemma C8_order_number_witness :
  (∃ m i,
     meta Examples.c63 !! "m" = Some (MInt m) ∧
     PyStr.find "_flux" (basename Examples.file63) = Some i ∧
     PyStr.int (PyStr.suffix 2 (PyStr.take i (basename Examples.file63))) = Some m ∧
     (PyStr.find "_flux_tbl" (basename Examples.file63) = Some i →
      PyStr.int (PyStr.suffix 2 (stem_before_flux_tbl (basename Examples.file63))) = Some m)) ∧
  (∃ e, KeckNIRSPECSpectrum.init_file Examples.fs "/d/fitstbl/NS.1_6x_flux_tbl.fits" = Err e).
Proof.
  split.
  - apply (proj1 (C8_order_number_from_stem Examples.fs Examples.file63)).
    vm_compute. reflexivity.
  - apply (proj1 (proj2 (C8_order_number_from_stem Examples.fs "/d/fitstbl/NS.1_6x_flux_tbl.fits"))).
    vm_compute. reflexivity.
Defined.

Example order_number_63 : meta Examples.c63 !! "m" = Some (MInt 63).
Proof. vm_compute. reflexivity. Qed.

(** Two decimal digits are read as the number they write. *)
Lemma int_two_digits c1 c2 d1 d2 :
  PyStr.digit_of c1 = Some d1 → PyStr.digit_of c2 = Some d2 →
  PyStr.int (String c1 (String c2 "")) = Some (10 * d1 + d2).
Proof.
  intros H1 H2.
  destruct c1 as [[] [] [] [] [] [] [] []]; vm_compute in H1; try discriminate;
    injection H1 as <-;
    destruct c2 as [[] [] [] [] [] [] [] []]; vm_compute in H2; try discriminate;
    injection H2 as <-; vm_compute; reflexivity.
Qed.

(** [int()] also reads a sign or a blank next to one digit. *)
Example int_reads_more_than_digits :
  PyStr.int "-5" = Some (-5) ∧ PyStr.int "+5" = Some 5 ∧ PyStr.int " 5" = Some 5 ∧
  PyStr.int "5 " = Some 5 ∧ PyStr.int "5_" = None ∧ PyStr.int "_5" = None ∧
  PyStr.int "S." = None.
Proof. repeat split; reflexivity. Qed.

(** ** The order of [float64] values *)

Section Float_order.

Import Numpy.

Lemma leb_finite_pos m1 e1 m2 e2 :
  leb (S754_finite false m1 e1) (S754_finite false m2 e2) = true
  ↔ e1 < e2 ∨ (e1 = e2 ∧ (m1 ≤ m2)%positive).
Proof.
  unfold leb, SFleb, SFcompare.
  change (Pos.compare_cont Eq m1 m2) with (Pos.compare m1 m2).
  destruct (Z.compare_spec e1 e2); [destruct (Pos.compare_spec m1 m2)|..];
    split; intros; try done; lia.
Qed.

Lemma leb_finite_neg m1 e1 m2 e2 :
  leb (S754_finite true m1 e1) (S754_finite true m2 e2) = true
  ↔ e2 < e1 ∨ (e1 = e2 ∧ (m2 ≤ m1)%positive).
Proof.
  unfold leb, SFleb, SFcompare.
  change (Pos.compare_cont Eq m1 m2) with (Pos.compare m1 m2).
  destruct (Z.compare_spec e1 e2); [destruct (Pos.compare_spec m1 m2)|..];
    split; intros; try done; lia.
Qed.

Lemma leb_refl x : isnan x = false → leb x x = true.
Proof.
  destruct x as [[]|[]| |[] m e]; try done; intros _.
  - apply leb_finite_neg. lia.
  - apply leb_finite_pos. lia.
Qed.

Lemma leb_total x y : isnan x = false → isnan y = false → leb x y = false → leb y x = true.
Proof.
  destruct x as [[]|[]| |[] m1 e1], y as [[]|[]| |[] m2 e2]; try done; intros _ _ H.
  - apply leb_finite_neg. apply not_true_iff_false in H. rewrite leb_finite_neg in H. lia.
  - apply leb_finite_pos. apply not_true_iff_false in H. rewrite leb_finite_pos in H. lia.
Qed.

Lemma leb_trans x y z : leb x y = true → leb y z = true → leb x z = true.
Proof.
  destruct x as [[]|[]| |[] m1 e1], y as [[]|[]| |[] m2 e2], z as [[]|[]| |[] m3 e3];
    try done.
  - rewrite !leb_finite_neg. lia.
  - rewrite !leb_finite_pos. lia.
Qed.

Lemma one_eq : one = S754_finite false 4503599627370496 (-52).
Proof. vm_compute. reflexivity. Qed.

Lemma leb_antisym_finite x m0 e0 :
  leb x (S754_finite false m0 e0) = true → leb (S754_finite false m0 e0) x = true →
  x = S754_finite false m0 e0.
Proof.
  destruct x as [[]|[]| |[] m e]; try done.
  rewrite !leb_finite_pos. intros H1 H2.
  assert (e = e0) as -> by lia. f_equal. lia.
Qed.

Lemma leb_antisym_one x : leb x one = true → leb one x = true → x = one.
Proof. rewrite one_eq. apply leb_antisym_finite. Qed.

Lemma isnan_leb_l x y : leb x y = true → isnan x = false.
Proof. by destruct x. Qed.

Lemma isnan_leb_r x y : leb x y = true → isnan y = false.
Proof. by destruct x, y. Qed.

End Float_order.

(** ** Rounding of binary64 values *)

Section Rounding.

Lemma fexp_eq e : fexp 53 1024 e = Z.max (e - 53) (-1074).
Proof. reflexivity. Qed.

Lemma digits_bounds p :
  2 ^ (Zpos (digits2_pos p) - 1) ≤ Zpos p ∧ Zpos p < 2 ^ Zpos (digits2_pos p).
Proof.
  induction p as [p [IH1 IH2]|p [IH1 IH2]|]; cbn [digits2_pos].
  - rewrite Pos2Z.inj_succ. change (Zpos p~1) with (2 * Zpos p + 1).
    replace (Z.succ (Zpos (digits2_pos p)) - 1) with (Z.succ (Zpos (digits2_pos p) - 1)) by lia.
    rewrite !Z.pow_succ_r by lia. split; lia.
  - rewrite Pos2Z.inj_succ. change (Zpos p~0) with (2 * Zpos p).
    replace (Z.succ (Zpos (digits2_pos p)) - 1) with (Z.succ (Zpos (digits2_pos p) - 1)) by lia.
    rewrite !Z.pow_succ_r by lia. split; lia.
  - done.
Qed.

Lemma Zdigits2_bounds m :
  0 < m → 2 ^ (Zdigits2 m - 1) ≤ m ∧ m < 2 ^ Zdigits2 m ∧ 0 < Zdigits2 m.
Proof.
  destruct m as [|p|p]; try lia. intros _.
  destruct (digits_bounds p). done.
Qed.

Lemma Zdigits2_le m k : 0 ≤ m → 0 ≤ k → m < 2 ^ k → Zdigits2 m ≤ k.
Proof.
  intros Hm Hk Hlt. destruct (Z.eq_dec m 0) as [->|Hne]; [done|].
  destruct (Zdigits2_bounds m) as (Hlo & _ & Hpos); [lia|].
  destruct (Z.le_gt_cases (Zdigits2 m) k) as [|Hgt]; [done|].
  assert (2 ^ k ≤ 2 ^ (Zdigits2 m - 1)) by (apply Z.pow_le_mono_r; lia). lia.
Qed.

Lemma shr_1_m mrs : 0 ≤ shr_m mrs → shr_m (shr_1 mrs) = shr_m mrs / 2.
Proof.
  destruct mrs as [m r s]. cbn [shr_m]. intros Hm.
  destruct m as [|[p|p|]|p]; cbn [shr_1 shr_m]; try done.
  - change (Zpos p~1) with (2 * Zpos p + 1). apply (Z.div_unique _ 2 _ 1); lia.
  - change (Zpos p~0) with (2 * Zpos p). apply (Z.div_unique _ 2 _ 0); lia.
Qed.

Lemma iter_shr_m p : ∀ mrs,
  0 ≤ shr_m mrs → shr_m (SpecFloat.iter_pos shr_1 p mrs) = shr_m mrs / 2 ^ Zpos p.
Proof.
  induction p as [p IH|p IH|]; intros mrs Hm; cbn [SpecFloat.iter_pos].
  - assert (0 ≤ shr_m (shr_1 mrs)) as H1.
    { rewrite shr_1_m by done. apply Z.div_pos; lia. }
    assert (0 ≤ shr_m (SpecFloat.iter_pos shr_1 p (shr_1 mrs))) as H2.
    { rewrite IH by done. apply Z.div_pos; [done|]. apply Z.pow_pos_nonneg; lia. }
    rewrite IH, IH, shr_1_m by done.
    rewrite !Z.div_div by (try apply Z.pow_pos_nonneg; lia).
    f_equal. change (Zpos p~1) with (2 * Zpos p + 1). rewrite <- Z.pow_add_r by lia.
    replace (2 * Zpos p + 1) with (Z.succ (Zpos p + Zpos p)) by lia.
    by rewrite Z.pow_succ_r by lia.
  - assert (0 ≤ shr_m (SpecFloat.iter_pos shr_1 p mrs)) as H2.
    { rewrite IH by done. apply Z.div_pos; [done|]. apply Z.pow_pos_nonneg; lia. }
    rewrite IH, IH by done.
    rewrite !Z.div_div by (try apply Z.pow_pos_nonneg; lia).
    f_equal. change (Zpos p~0) with (2 * Zpos p). rewrite <- Z.pow_add_r by lia. f_equal. lia.
  - rewrite shr_1_m by done. done.
Qed.

Lemma shr_1_exact k :
  0 ≤ k → shr_1 {| shr_m := 2 * k; shr_r := false; shr_s := false |}
          = {| shr_m := k; shr_r := false; shr_s := false |}.
Proof. destruct k as [|p|p]; [done|done|lia]. Qed.

Lemma iter_shr_exact p : ∀ k,
  0 ≤ k →
  SpecFloat.iter_pos shr_1 p {| shr_m := k * 2 ^ Zpos p; shr_r := false; shr_s := false |}
  = {| shr_m := k; shr_r := false; shr_s := false |}.
Proof.
  induction p as [p IH|p IH|]; intros k Hk; cbn [SpecFloat.iter_pos].
  - assert (0 < 2 ^ Zpos p) as Hp by (apply Z.pow_pos_nonneg; lia).
    replace (k * 2 ^ Zpos p~1) with (2 * ((k * 2 ^ Zpos p) * 2 ^ Zpos p)).
    { rewrite shr_1_exact by nia. rewrite IH by nia. by apply IH. }
    change (Zpos p~1) with (2 * Zpos p + 1).
    replace (2 * Zpos p + 1) with (Z.succ (Zpos p + Zpos p)) by lia.
    rewrite Z.pow_succ_r, Z.pow_add_r by lia. lia.
  - assert (0 < 2 ^ Zpos p) as Hp by (apply Z.pow_pos_nonneg; lia).
    replace (k * 2 ^ Zpos p~0) with ((k * 2 ^ Zpos p) * 2 ^ Zpos p).
    { rewrite IH by nia. by apply IH. }
    change (Zpos p~0) with (2 * Zpos p).
    replace (2 * Zpos p) with (Zpos p + Zpos p) by lia.
    rewrite Z.pow_add_r by lia. lia.
  - replace (k * 2 ^ 1) with (2 * k) by lia. by apply shr_1_exact.
Qed.

(** [shr_fexp] on a mantissa that is not negative: the new exponent and
    the new mantissa; an exact mantissa that loses only zeros stays
    exact. *)
Lemma shr_fexp_spec m e l :
  0 ≤ m →
  (shr_fexp 53 1024 m e l).2 = Z.max e (fexp 53 1024 (Zdigits2 m + e)) ∧
  shr_m (shr_fexp 53 1024 m e l).1 = m / 2 ^ (Z.max e (fexp 53 1024 (Zdigits2 m + e)) - e).
Proof.
  intros Hm. unfold shr_fexp, shr.
  assert (shr_m (shr_record_of_loc m l) = m) as Hrec by (by destruct l as [|[]]).
  destruct (fexp 53 1024 (Zdigits2 m + e) - e) as [|p|p] eqn:Hn; cbn [fst snd].
  - rewrite Hrec. replace (Z.max _ _ - e) with 0 by lia.
    split; [lia|]. by rewrite Z.div_1_r.
  - replace (Z.max e (fexp 53 1024 (Zdigits2 m + e))) with (e + Zpos p) by lia.
    split; [done|]. rewrite iter_shr_m by (by rewrite Hrec).
    rewrite Hrec. f_equal. f_equal. lia.
  - rewrite Hrec. replace (Z.max _ _ - e) with 0 by lia.
    split; [lia|]. by rewrite Z.div_1_r.
Qed.

End Rounding.

(** ** The quotient of two binary64 values and 1.0 *)

Section Quotient.

Import Numpy.

Lemma pow2_pos k : 0 ≤ k → 0 < 2 ^ k.
Proof. intros. apply Z.pow_pos_nonneg; lia. Qed.

Lemma floor_le_pow m n a : 0 ≤ n → n ≤ a → m ≤ 2 ^ a → m / 2 ^ n ≤ 2 ^ (a - n).
Proof.
  intros Hn Ha Hm. rewrite Z.pow_sub_r by lia.
  apply Z.div_le_mono; [by apply pow2_pos|done].
Qed.

Lemma floor_ge_pow m n a : 0 ≤ n → n ≤ a → 2 ^ a ≤ m → 2 ^ (a - n) ≤ m / 2 ^ n.
Proof.
  intros Hn Ha Hm. rewrite Z.pow_sub_r by lia.
  apply Z.div_le_mono; [by apply pow2_pos|done].
Qed.

Lemma rne_bounds m l : m ≤ round_nearest_even m l ∧ round_nearest_even m l ≤ m + 1.
Proof. destruct l as [|[]]; cbn; try destruct (Z.even m); lia. Qed.

Lemma binary_round_aux_spec q e l :
  binary_round_aux 53 1024 false q e l
  = match shr_m (shr_fexp 53 1024
                   (round_nearest_even (shr_m (shr_fexp 53 1024 q e l).1)
                                       (loc_of_shr_record (shr_fexp 53 1024 q e l).1))
                   (shr_fexp 53 1024 q e l).2 loc_Exact).1 with
    | 0 => S754_zero false
    | Zpos p =>
        if (shr_fexp 53 1024
              (round_nearest_even (shr_m (shr_fexp 53 1024 q e l).1)
                                  (loc_of_shr_record (shr_fexp 53 1024 q e l).1))
              (shr_fexp 53 1024 q e l).2 loc_Exact).2 <=? 971
        then S754_finite false p
               (shr_fexp 53 1024
                  (round_nearest_even (shr_m (shr_fexp 53 1024 q e l).1)
                                      (loc_of_shr_record (shr_fexp 53 1024 q e l).1))
                  (shr_fexp 53 1024 q e l).2 loc_Exact).2
        else S754_infinity false
    | Zneg _ => S754_nan
    end.
Proof.
  unfold binary_round_aux.
  destruct (shr_fexp 53 1024 q e l) as [mrs' e']. cbn [fst snd].
  by destruct (shr_fexp 53 1024 _ e' loc_Exact) as [mrs'' e''].
Qed.

Lemma binary_round_aux_sign q e l :
  binary_round_aux 53 1024 true q e l = SFopp (binary_round_aux 53 1024 false q e l).
Proof.
  unfold binary_round_aux.
  destruct (shr_fexp 53 1024 q e l) as [mrs' e'].
  destruct (shr_fexp 53 1024 _ e' loc_Exact) as [mrs'' e''].
  destruct (shr_m mrs''); [done| |done]. by destruct (_ <=? _).
Qed.

(** One shift of a mantissa that stands for at most 1.0. *)
Lemma shift_le_one m e l :
  0 ≤ m → e ≤ -52 → m ≤ 2 ^ (- e) →
  (shr_fexp 53 1024 m e l).2 ≤ -52 ∧
  e ≤ (shr_fexp 53 1024 m e l).2 ∧
  0 ≤ shr_m (shr_fexp 53 1024 m e l).1 ∧
  shr_m (shr_fexp 53 1024 m e l).1 ≤ 2 ^ (- (shr_fexp 53 1024 m e l).2) ∧
  shr_m (shr_fexp 53 1024 m e l).1 = m / 2 ^ ((shr_fexp 53 1024 m e l).2 - e).
Proof.
  intros Hm He Hle.
  destruct (shr_fexp_spec m e l Hm) as [-> ->].
  assert (Zdigits2 m ≤ - e + 1) as Hd.
  { apply Zdigits2_le; [done|lia|].
    replace (- e + 1) with (Z.succ (- e)) by lia. rewrite Z.pow_succ_r by lia.
    pose proof (pow2_pos (- e)). lia. }
  rewrite fexp_eq.
  set (e1 := Z.max e (Z.max (Zdigits2 m + e - 53) (-1074))).
  assert (e ≤ e1 ∧ e1 ≤ -52) as [He1 He1'] by (unfold e1; lia).
  split; [done|]. split; [done|]. split.
  { apply Z.div_pos; [done|]. apply pow2_pos. lia. }
  split; [|done].
  replace (- e1) with (- e - (e1 - e)) by lia.
  apply floor_le_pow; lia.
Qed.

(** One shift of a mantissa that stands for at least 1.0. *)
Lemma shift_ge_one m e l :
  1 ≤ m → -1074 ≤ e → (e ≤ 0 → 2 ^ (- e) ≤ m) →
  -1074 ≤ (shr_fexp 53 1024 m e l).2 ∧
  1 ≤ shr_m (shr_fexp 53 1024 m e l).1 ∧
  ((shr_fexp 53 1024 m e l).2 ≤ 0 →
   2 ^ (- (shr_fexp 53 1024 m e l).2) ≤ shr_m (shr_fexp 53 1024 m e l).1) ∧
  shr_m (shr_fexp 53 1024 m e l).1 < 2 ^ 53.
Proof.
  intros Hm He Hge.
  destruct (shr_fexp_spec m e l) as [-> ->]; [lia|].
  destruct (Zdigits2_bounds m) as (Hlo & Hhi & Hd); [lia|].
  rewrite fexp_eq.
  set (e1 := Z.max e (Z.max (Zdigits2 m + e - 53) (-1074))).
  assert (e ≤ e1 ∧ e1 - e ≤ Zdigits2 m - 1 ∧ Zdigits2 m - 53 ≤ e1 - e) as (He1 & Hn & Hn')
    by (unfold e1; lia).
  assert (0 < 2 ^ (e1 - e)) as Hpos by (apply pow2_pos; lia).
  split; [lia|]. split; [|split].
  - apply Z.div_le_lower_bound; [done|].
    assert (2 ^ (e1 - e) ≤ 2 ^ (Zdigits2 m - 1)) by (apply Z.pow_le_mono_r; lia). lia.
  - intros He0. replace (- e1) with (- e - (e1 - e)) by lia.
    apply floor_ge_pow; [lia|lia|]. apply Hge. lia.
  - apply Z.div_lt_upper_bound; [done|].
    rewrite <- Z.pow_add_r by lia.
    assert (2 ^ Zdigits2 m ≤ 2 ^ (e1 - e + 53)) by (apply Z.pow_le_mono_r; lia). lia.
Qed.

Lemma shr_fexp_loc_exact k e n :
  0 ≤ k → 0 ≤ n →
  n = Z.max e (fexp 53 1024 (Zdigits2 (k * 2 ^ n) + e)) - e →
  loc_of_shr_record (shr_fexp 53 1024 (k * 2 ^ n) e loc_Exact).1 = loc_Exact.
Proof.
  intros Hk Hn Heq. unfold shr_fexp, shr.
  destruct (fexp 53 1024 (Zdigits2 (k * 2 ^ n) + e) - e) as [|p|p] eqn:Hp;
    cbn [fst shr_record_of_loc]; [done| |done].
  assert (n = Zpos p) as -> by lia.
  by rewrite iter_shr_exact.
Qed.

Lemma leb_finite_pos_Z m1 e1 m2 e2 :
  leb (S754_finite false m1 e1) (S754_finite false m2 e2) = true
  ↔ e1 < e2 ∨ (e1 = e2 ∧ Zpos m1 ≤ Zpos m2).
Proof. rewrite leb_finite_pos. split; intros [H|[H1 H2]]; lia. Qed.

Lemma leb_one_finite p e :
  leb (S754_finite false p e) one = true ↔ e < -52 ∨ (e = -52 ∧ Zpos p ≤ 2 ^ 52).
Proof.
  rewrite one_eq, leb_finite_pos_Z.
  change (2 ^ 52) with 4503599627370496. reflexivity.
Qed.

Lemma one_leb_finite p e :
  leb one (S754_finite false p e) = true ↔ -52 < e ∨ (e = -52 ∧ 2 ^ 52 ≤ Zpos p).
Proof.
  rewrite one_eq, leb_finite_pos_Z.
  change (2 ^ 52) with 4503599627370496.
  split; (intros [H|[H1 H2]]; [left; exact H|right; split; [by symmetry|exact H2]]).
Qed.

(** A mantissa and an exponent that stand for at most 1.0 round to at
    most 1.0. *)
Lemma round_le_one q e l :
  0 ≤ q → e ≤ -52 → q ≤ 2 ^ (- e) → (q = 2 ^ (- e) → l = loc_Exact) →
  leb (binary_round_aux 53 1024 false q e l) one = true.
Proof.
  intros Hq He Hle Hexact.
  rewrite binary_round_aux_spec.
  destruct (shift_le_one q e l Hq He Hle) as (He1 & He1' & Hm1 & Hm1' & Hm1eq).
  set (e1 := (shr_fexp 53 1024 q e l).2) in *.
  set (m1 := shr_m (shr_fexp 53 1024 q e l).1) in *.
  set (M := round_nearest_even m1 _).
  assert (m1 ≤ M ∧ M ≤ 2 ^ (- e1)) as [HM HM'].
  { destruct (rne_bounds m1 (loc_of_shr_record (shr_fexp 53 1024 q e l).1)) as [H1 H2].
    fold M in H1, H2. split; [done|].
    destruct (Z.eq_dec m1 (2 ^ (- e1))) as [Heq|Hne]; [|lia].
    assert (0 < 2 ^ (e1 - e)) as Hpos by (apply pow2_pos; lia).
    assert (q = 2 ^ (- e1) * 2 ^ (e1 - e)) as Hq2.
    { pose proof (Z.mul_div_le q (2 ^ (e1 - e)) Hpos) as Hfloor.
      rewrite <- Hm1eq, Heq in Hfloor.
      assert (2 ^ (- e) = 2 ^ (- e1) * 2 ^ (e1 - e)) as Hpow.
      { rewrite <- Z.pow_add_r by lia. f_equal. lia. }
      lia. }
    assert (l = loc_Exact) as ->.
    { apply Hexact. rewrite Hq2, <- Z.pow_add_r by lia. f_equal. lia. }
    assert (loc_of_shr_record (shr_fexp 53 1024 q e loc_Exact).1 = loc_Exact) as Hloc.
    { pose proof (shr_fexp_spec q e loc_Exact Hq) as [Hspec _]. fold e1 in Hspec.
      rewrite Hq2. apply shr_fexp_loc_exact; [apply Z.lt_le_incl, pow2_pos; lia|lia|].
      rewrite <- Hq2, <- Hspec. done. }
    unfold M. rewrite Hloc. cbn [round_nearest_even]. lia. }
  destruct (shift_le_one M e1 loc_Exact) as (He2 & _ & Hm2 & Hm2' & _); [lia|done|done|].
  set (e2 := (shr_fexp 53 1024 M e1 loc_Exact).2) in *.
  destruct (shr_m (shr_fexp 53 1024 M e1 loc_Exact).1) as [|p|p] eqn:Hp; [done| |lia].
  rewrite (proj2 (Z.leb_le e2 971)) by lia.
  apply leb_one_finite.
  destruct (Z.eq_dec e2 (-52)) as [E|E]; [right|left; lia].
  split; [done|]. by rewrite E in Hm2'.
Qed.

(** A mantissa and an exponent that stand for at least 1.0 round to at
    least 1.0. *)
Lemma round_ge_one q e l :
  1 ≤ q → -1074 ≤ e → (e ≤ 0 → 2 ^ (- e) ≤ q) →
  leb one (binary_round_aux 53 1024 false q e l) = true.
Proof.
  intros Hq He Hge.
  rewrite binary_round_aux_spec.
  destruct (shift_ge_one q e l Hq He Hge) as (He1 & Hm1 & Hm1' & _).
  set (e1 := (shr_fexp 53 1024 q e l).2) in *.
  set (m1 := shr_m (shr_fexp 53 1024 q e l).1) in *.
  set (M := round_nearest_even m1 _).
  assert (m1 ≤ M) as HM.
  { destruct (rne_bounds m1 (loc_of_shr_record (shr_fexp 53 1024 q e l).1)) as [H1 _].
    done. }
  destruct (shift_ge_one M e1 loc_Exact) as (He2 & Hm2 & Hm2' & Hm2'').
  { lia. } { done. } { intros H. specialize (Hm1' H). lia. }
  set (e2 := (shr_fexp 53 1024 M e1 loc_Exact).2) in *.
  destruct (shr_m (shr_fexp 53 1024 M e1 loc_Exact).1) as [|p|p] eqn:Hp; [lia| |lia].
  destruct (e2 <=? 971); [|by rewrite one_eq].
  apply one_leb_finite.
  destruct (Z_lt_le_dec (-52) e2) as [E|E]; [by left|right].
  assert (2 ^ 52 ≤ 2 ^ (- e2)) as Hpow by (apply Z.pow_le_mono_r; lia).
  specialize (Hm2' ltac:(lia)).
  destruct (Z.eq_dec e2 (-52)) as [E'|E']; [split; [done|lia]|].
  assert (2 ^ 53 ≤ 2 ^ (- e2)) by (apply Z.pow_le_mono_r; lia). lia.
Qed.

End Quotient.

(** ** Division of binary64 values *)

Section Division.

Import Numpy.

Lemma bounded_facts m e :
  bounded 53 1024 m e = true →
  -1074 ≤ e ∧ e ≤ 971 ∧ Zpos (digits2_pos m) ≤ 53 ∧ (-1074 < e → Zpos (digits2_pos m) = 53).
Proof.
  unfold bounded, canonical_mantissa. intros [H1 H2]%andb_true_iff.
  apply Z.eqb_eq in H1. apply Z.leb_le in H2. rewrite fexp_eq in H1.
  change (1024 - 53) with 971 in H2. lia.
Qed.

(** The order of two positive binary64 values is the order of their
    mantissas brought to the exponent -1074. *)
Lemma scaled_le mx ex my ey :
  bounded 53 1024 mx ex = true → bounded 53 1024 my ey = true →
  leb (S754_finite false mx ex) (S754_finite false my ey) = true →
  Zpos mx * 2 ^ (ex + 1074) ≤ Zpos my * 2 ^ (ey + 1074).
Proof.
  intros (Hx1 & Hx2 & Hx3 & Hx4)%bounded_facts (Hy1 & Hy2 & Hy3 & Hy4)%bounded_facts.
  rewrite leb_finite_pos_Z. intros [Hlt|[-> Hle]].
  - destruct (digits_bounds mx) as [_ Hmx]. destruct (digits_bounds my) as [Hmy _].
    rewrite Hy4 in Hmy by lia.
    assert (2 ^ Zpos (digits2_pos mx) ≤ 2 ^ 53) as H53 by (apply Z.pow_le_mono_r; lia).
    pose proof (pow2_pos (ex + 1074) ltac:(lia)) as Hpx.
    pose proof (pow2_pos (ey + 1074) ltac:(lia)) as Hpy.
    etrans; [apply (Z.mul_le_mono_nonneg_r _ (2 ^ 53)); lia|].
    etrans; [|apply (Z.mul_le_mono_nonneg_r (2 ^ (53 - 1))); [lia|exact Hmy]].
    rewrite <- !Z.pow_add_r by lia. apply Z.pow_le_mono_r; lia.
  - apply Z.mul_le_mono_nonneg_r; [|done]. apply Z.lt_le_incl, pow2_pos. lia.
Qed.

Lemma scaled_digits mx ex my ey :
  -1074 ≤ ex → -1074 ≤ ey →
  Zpos mx * 2 ^ (ex + 1074) ≤ Zpos my * 2 ^ (ey + 1074) →
  Zpos (digits2_pos mx) + ex ≤ Zpos (digits2_pos my) + ey.
Proof.
  intros Hex Hey Hle.
  destruct (digits_bounds mx) as [Hmx _]. destruct (digits_bounds my) as [_ Hmy].
  pose proof (pow2_pos (ex + 1074) ltac:(lia)) as Hpx.
  pose proof (pow2_pos (ey + 1074) ltac:(lia)) as Hpy.
  assert (2 ^ (Zpos (digits2_pos mx) - 1 + (ex + 1074))
          < 2 ^ (Zpos (digits2_pos my) + (ey + 1074))) as Hpow.
  { rewrite (Z.pow_add_r 2 (Zpos (digits2_pos mx) - 1)) by lia.
    rewrite (Z.pow_add_r 2 (Zpos (digits2_pos my))) by lia.
    eapply Z.le_lt_trans; [apply Z.mul_le_mono_nonneg_r; [lia|exact Hmx]|].
    eapply Z.le_lt_trans; [exact Hle|].
    by apply Zmult_lt_compat_r. }
  apply Z.pow_lt_mono_r_iff in Hpow; lia.
Qed.

(** The two sides brought to the exponent of the quotient. *)
Lemma scaled_shift a b ex ey e' :
  -1074 ≤ ex → -1074 ≤ ey → e' ≤ 0 → e' ≤ ex - ey →
  a * 2 ^ (ex + 1074) ≤ b * 2 ^ (ey + 1074) →
  a * 2 ^ (ex - ey - e') ≤ b * 2 ^ (- e').
Proof.
  intros Hex Hey He' Hs Hle.
  apply (Z.mul_le_mono_pos_r _ _ (2 ^ (ey + 1074)) ltac:(apply pow2_pos; lia)).
  replace (a * 2 ^ (ex - ey - e') * 2 ^ (ey + 1074)) with (a * 2 ^ (ex + 1074) * 2 ^ (- e')).
  2:{ rewrite <- !Z.mul_assoc, <- !Z.pow_add_r by lia. do 2 f_equal. lia. }
  replace (b * 2 ^ (- e') * 2 ^ (ey + 1074)) with (b * 2 ^ (ey + 1074) * 2 ^ (- e')) by lia.
  apply Z.mul_le_mono_nonneg_r; [|done]. apply Z.lt_le_incl, pow2_pos. lia.
Qed.

Lemma scaled_shift_ge a b ex ey e' :
  -1074 ≤ ex → -1074 ≤ ey → e' ≤ 0 → e' ≤ ex - ey →
  b * 2 ^ (ey + 1074) ≤ a * 2 ^ (ex + 1074) →
  b * 2 ^ (- e') ≤ a * 2 ^ (ex - ey - e').
Proof.
  intros Hex Hey He' Hs Hle.
  apply (Z.mul_le_mono_pos_r _ _ (2 ^ (ey + 1074)) ltac:(apply pow2_pos; lia)).
  replace (a * 2 ^ (ex - ey - e') * 2 ^ (ey + 1074)) with (a * 2 ^ (ex + 1074) * 2 ^ (- e')).
  2:{ rewrite <- !Z.mul_assoc, <- !Z.pow_add_r by lia. do 2 f_equal. lia. }
  replace (b * 2 ^ (- e') * 2 ^ (ey + 1074)) with (b * 2 ^ (ey + 1074) * 2 ^ (- e')) by lia.
  apply Z.mul_le_mono_nonneg_r; [|done]. apply Z.lt_le_incl, pow2_pos. lia.
Qed.

(** What the division of two mantissas hands to the rounding. *)
Lemma div_core_spec mx ex my ey :
  ∃ q r,
    SFdiv_core_binary 53 1024 (Zpos mx) ex (Zpos my) ey
    = (q,
       Z.min (fexp 53 1024 (Zpos (digits2_pos mx) + ex - (Zpos (digits2_pos my) + ey))) (ex - ey),
       new_location (Zpos my) r) ∧
    Zpos mx * 2 ^ (ex - ey
                   - Z.min (fexp 53 1024 (Zpos (digits2_pos mx) + ex - (Zpos (digits2_pos my) + ey)))
                           (ex - ey))
    = Zpos my * q + r ∧
    0 ≤ r ∧ r < Zpos my.
Proof.
  unfold SFdiv_core_binary. cbn [Zdigits2].
  set (e' := Z.min _ (ex - ey)).
  set (m' := match ex - ey - e' with Z0 => Zpos mx | Zpos _ => _ | Zneg _ => _ end).
  assert (m' = Zpos mx * 2 ^ (ex - ey - e')) as Hm'.
  { unfold m'. destruct (ex - ey - e') as [|s|s] eqn:Hs; [lia| |lia].
    by rewrite Z.shiftl_mul_pow2. }
  pose proof (Z_div_mod m' (Zpos my) eq_refl) as Hdiv.
  destruct (Z.div_eucl m' (Zpos my)) as [q r]. exists q, r.
  rewrite <- Hm'. destruct Hdiv as [Hdiv [Hr0 Hr1]]. done.
Qed.

Lemma new_location_exact n : new_location n 0 = loc_Exact.
Proof. unfold new_location. by destruct (Z.even n). Qed.

(** The quotient of a positive value by a positive value that is not
    smaller is at most 1.0, and the quotient by one that is not larger
    is at least 1.0. *)
Lemma quotient_le_one mx ex my ey :
  bounded 53 1024 mx ex = true → bounded 53 1024 my ey = true →
  leb (S754_finite false mx ex) (S754_finite false my ey) = true →
  leb (div (S754_finite false mx ex) (S754_finite false my ey)) one = true.
Proof.
  intros Hbx Hby Hle.
  pose proof (scaled_le mx ex my ey Hbx Hby Hle) as Hxy.
  destruct (bounded_facts _ _ Hbx) as (Hx1 & _ & Hx3 & _).
  destruct (bounded_facts _ _ Hby) as (Hy1 & _ & Hy3 & _).
  pose proof (scaled_digits mx ex my ey Hx1 Hy1 Hxy) as Hd.
  unfold div, SFdiv, prec, emax. cbn [xorb].
  destruct (div_core_spec mx ex my ey) as (q & r & -> & Heq & Hr0 & Hr1).
  revert Heq. rewrite fexp_eq.
  set (e' := Z.min _ (ex - ey)). intros Heq.
  assert (e' ≤ -52 ∧ e' ≤ ex - ey) as [He' Hs] by (unfold e'; lia).
  pose proof (scaled_shift (Zpos mx) (Zpos my) ex ey e' Hx1 Hy1 ltac:(lia) Hs Hxy) as Hle'.
  pose proof (pow2_pos (- e') ltac:(lia)) as Hpos.
  apply round_le_one; [nia|done|nia|].
  intros ->. rewrite <- (new_location_exact (Zpos my)). f_equal. nia.
Qed.

Lemma quotient_ge_one mx ex my ey :
  bounded 53 1024 mx ex = true → bounded 53 1024 my ey = true →
  leb (S754_finite false my ey) (S754_finite false mx ex) = true →
  leb one (div (S754_finite false mx ex) (S754_finite false my ey)) = true.
Proof.
  intros Hbx Hby Hle.
  pose proof (scaled_le my ey mx ex Hby Hbx Hle) as Hyx.
  destruct (bounded_facts _ _ Hbx) as (Hx1 & _ & Hx3 & _).
  destruct (bounded_facts _ _ Hby) as (Hy1 & _ & Hy3 & _).
  pose proof (scaled_digits my ey mx ex Hy1 Hx1 Hyx) as Hd.
  destruct (digits_bounds mx) as [Hmx _]. destruct (digits_bounds my) as [_ Hmy].
  unfold div, SFdiv, prec, emax. cbn [xorb].
  destruct (div_core_spec mx ex my ey) as (q & r & -> & Heq & Hr0 & Hr1).
  revert Heq. rewrite fexp_eq.
  set (dx := Zpos (digits2_pos mx)) in *. set (dy := Zpos (digits2_pos my)) in *.
  set (e' := Z.min _ (ex - ey)). intros Heq.
  assert (0 < dy) as Hdy by done.
  assert (-1074 ≤ e' ∧ e' ≤ ex - ey ∧ (0 < e' → 53 - dx + dy ≤ ex - ey - e'))
    as (He' & Hs & Hbig) by (unfold e'; lia).
  assert (e' ≤ 0 → 2 ^ (- e') ≤ q) as Hq.
  { intros He0.
    pose proof (scaled_shift_ge (Zpos mx) (Zpos my) ex ey e' Hx1 Hy1 He0 Hs Hyx) as Hge.
    pose proof (pow2_pos (- e') ltac:(lia)). nia. }
  apply round_ge_one; [|done|done].
  destruct (Z_le_gt_dec e' 0) as [He0|He0].
  { pose proof (pow2_pos (- e') ltac:(lia)). specialize (Hq He0). lia. }
  assert (2 ^ dy ≤ Zpos mx * 2 ^ (ex - ey - e')) as Hlarge.
  { assert (2 ^ (53 - dx + dy) ≤ 2 ^ (ex - ey - e')) as H1 by (apply Z.pow_le_mono_r; lia).
    assert (2 ^ dy ≤ 2 ^ (dx - 1) * 2 ^ (53 - dx + dy)) as H2.
    { rewrite <- Z.pow_add_r by lia. apply Z.pow_le_mono_r; lia. }
    pose proof (pow2_pos (dx - 1) ltac:(lia)).
    pose proof (pow2_pos (53 - dx + dy) ltac:(lia)).
    etrans; [exact H2|]. apply Z.mul_le_mono_nonneg; lia. }
  nia.
Qed.

(** The rounded quotient of two mantissas carries the sign it is given
    and is a number. *)
Lemma quotient_sign q e l :
  binary_round_aux 53 1024 true q e l = SFopp (binary_round_aux 53 1024 false q e l) ∧
  match binary_round_aux 53 1024 false q e l with
  | S754_zero s | S754_infinity s | S754_finite s _ _ => s = false
  | S754_nan => True
  end.
Proof.
  split; [apply binary_round_aux_sign|].
  rewrite binary_round_aux_spec.
  destruct (shr_m _); [done| |done]. by destruct (_ <=? _).
Qed.

Lemma leb_opp_one x :
  isnan x = false →
  match x with S754_zero s | S754_infinity s | S754_finite s _ _ => s = false | S754_nan => True end →
  leb (SFopp x) one = true.
Proof. rewrite one_eq. destruct x as [s|s| |s m e]; try done; by intros _ ->. Qed.

Lemma finite_neg_pos m1 e1 m2 e2 :
  leb (S754_finite true m1 e1) (S754_finite true m2 e2)
  = leb (S754_finite false m2 e2) (S754_finite false m1 e1).
Proof.
  apply eq_true_iff_eq. rewrite leb_finite_neg, leb_finite_pos.
  split; intros [H|[H1 H2]]; lia.
Qed.

(** Division by a finite binary64 value that is not zero: the quotient
    of a number is a number, and it stands to 1.0 as the dividend stands
    to the divisor when the divisor is positive, the other way round when
    it is negative. *)
Lemma div_around_one x sm mm em :
  is_binary64 x → is_binary64 (S754_finite sm mm em) → isnan x = false →
  isnan (div x (S754_finite sm mm em)) = false ∧
  (leb (S754_finite sm mm em) x = true →
   if sm then leb (div x (S754_finite sm mm em)) one = true
   else leb one (div x (S754_finite sm mm em)) = true) ∧
  (leb x (S754_finite sm mm em) = true →
   if sm then leb one (div x (S754_finite sm mm em)) = true
   else leb (div x (S754_finite sm mm em)) one = true).
Proof.
  unfold is_binary64. cbn [valid_binary]. intros Hx Hm Hnan.
  destruct x as [s|s| |sx mx ex]; [| |done|].
  - rewrite one_eq. by destruct s, sm.
  - rewrite one_eq. by destruct s, sm.
  - assert (leb (div (S754_finite false mx ex) (S754_finite false mm em)) one = true ∨
            leb one (div (S754_finite false mx ex) (S754_finite false mm em)) = true) as Htotal.
    { destruct (leb (S754_finite false mx ex) (S754_finite false mm em)) eqn:Hle.
      - left. by apply quotient_le_one.
      - right. apply quotient_ge_one; [done|done|]. by apply leb_total. }
    pose proof (quotient_le_one mx ex mm em Hx Hm) as Hle1.
    pose proof (quotient_ge_one mx ex mm em Hx Hm) as Hge1.
    revert Htotal Hle1 Hge1. unfold div, SFdiv.
    destruct (SFdiv_core_binary prec emax (Zpos mx) ex (Zpos mm) em) as [[q e] l].
    change prec with 53. change emax with 1024.
    destruct (quotient_sign q e l) as [Hopp Hsign].
    set (R := binary_round_aux 53 1024 false q e l) in *.
    intros Htotal Hle1 Hge1.
    assert (isnan R = false) as HR.
    { destruct Htotal as [H|H]; [by eapply isnan_leb_l|by eapply isnan_leb_r]. }
    destruct sx, sm; cbn [xorb]; rewrite ?Hopp.
    + split; [done|]. rewrite !finite_neg_pos. split; [apply Hle1|apply Hge1].
    + split; [by destruct R|]. split; [done|]. intros _. by apply leb_opp_one.
    + split; [by destruct R|]. split; [|done]. intros _. by apply leb_opp_one.
    + split; [done|]. split; [apply Hge1|apply Hle1].
Qed.

Lemma div_self sm mm em :
  is_binary64 (S754_finite sm mm em) →
  div (S754_finite sm mm em) (S754_finite sm mm em) = one.
Proof.
  intros Hm.
  destruct (div_around_one (S754_finite sm mm em) sm mm em Hm Hm eq_refl) as (_ & H1 & H2).
  assert (leb (S754_finite sm mm em) (S754_finite sm mm em) = true) as Hrefl
    by (by apply leb_refl).
  specialize (H1 Hrefl). specialize (H2 Hrefl).
  destruct sm; by apply leb_antisym_one.
Qed.

(** Division by a finite binary64 value that is not zero keeps the order
    of binary64 values around the divisor or reverses it. *)
Lemma division_orders m l :
  is_binary64 m → finite_nonzero m → Forall is_binary64 l →
  div m m = one ∧ (keeps_order_at m m l ∨ reverses_order_at m m l).
Proof.
  intros Hm Hfin Hl. destruct m as [| | |sm mm em]; try done.
  split; [by apply div_self|].
  rewrite Forall_forall in Hl.
  destruct sm; [right|left]; intros x Hx Hnan; rewrite div_self by done;
    destruct (div_around_one x _ mm em (Hl x Hx) Hm Hnan) as (H0 & H1 & H2); done.
Qed.

End Division.

(** ** [normalize] *)

Lemma set_list_lookup w self l : heap (set_list w self l) !! self = Some l.
Proof. apply lookup_insert_eq. Qed.

Lemma set_list_set_list w self l l' : set_list (set_list w self l) self l' = set_list w self l'.
Proof. unfold set_list. cbn. by rewrite insert_insert_eq. Qed.

Lemma set_list_id w self l : heap w !! self = Some l → set_list w self l = w.
Proof. intros H. unfold set_list. rewrite (insert_id _ _ _ H). by destruct w. Qed.

Lemma setitem_spec w self l i c :
  heap w !! self = Some l → (i < length l)%nat →
  setitem self i c w = (Ok (), set_list w self (<[i := c]> l)).
Proof.
  intros Hl Hi. unfold setitem. rewrite Hl. by rewrite bool_decide_eq_true_2.
Qed.

(** A loop that replaces each element by what [f] returns for it. *)
Lemma replace_loop (f : Container → Result Container) self w rest : ∀ pre,
  for_range (length pre) (length rest)
            (λ i, c ← getitem self i; c' ← lift (f c); setitem self i c')
            (set_list w self (pre ++ rest))
  = (match (replace_all f rest).2 with Some e => Err e | None => Ok () end,
     set_list w self (pre ++ (replace_all f rest).1)).
Proof.
  induction rest as [|c rest IH]; intros pre; [done|].
  assert ((pre ++ c :: rest) !! length pre = Some c) as Hc.
  { rewrite lookup_app_r by lia. by rewrite Nat.sub_diag. }
  cbn [length for_range replace_all].
  destruct (f c) as [c'|e] eqn:Hf.
  - erewrite M_bind_Ok; last first.
    { erewrite M_bind_Ok;
        [|apply (getitem_spec self (pre ++ c :: rest)); [apply set_list_lookup|exact Hc]].
      erewrite M_bind_Ok; [|unfold lift; by rewrite Hf].
      apply (setitem_spec _ _ (pre ++ c :: rest)); [apply set_list_lookup|].
      apply lookup_lt_Some in Hc. exact Hc. }
    rewrite set_list_set_list.
    assert (<[length pre := c']> (pre ++ c :: rest) = (pre ++ [c']) ++ rest) as ->.
    { rewrite insert_app_r_alt by lia. rewrite Nat.sub_diag. cbn. by rewrite <- app_assoc. }
    specialize (IH (pre ++ [c'])). rewrite length_app in IH. cbn [length] in IH.
    rewrite Nat.add_1_r in IH. rewrite IH.
    destruct (replace_all f rest) as [r e]. cbn. by rewrite <- app_assoc.
  - cbn. apply M_bind_Err.
    erewrite M_bind_Ok;
      [|apply (getitem_spec self (pre ++ c :: rest)); [apply set_list_lookup|exact Hc]].
    apply M_bind_Err. unfold lift. by rewrite Hf.
Qed.

Lemma replace_all_Ok f l l' :
  Forall2 (λ c c', f c = Ok c') l l' → replace_all f l = (l', None).
Proof.
  induction 1 as [|c c' l l' Hc _ IH]; [done|]. cbn. by rewrite Hc, IH.
Qed.

Lemma replace_all_Err f l k c e pre :
  l !! k = Some c → f c = Err e →
  Forall2 (λ c c', f c = Ok c') (take k l) pre →
  replace_all f l = (pre ++ drop k l, Some e).
Proof.
  revert k pre. induction l as [|a l IH]; intros k pre Hk He Hdone; [done|].
  destruct k as [|k]; cbn in Hk, Hdone.
  - injection Hk as ->. apply Forall2_nil_inv_l in Hdone as ->. cbn. by rewrite He.
  - apply Forall2_cons_inv_l in Hdone as (a' & pre' & Ha & Hdone & ->).
    cbn. rewrite Ha, (IH k pre' Hk He Hdone). done.
Qed.

Lemma replace_all_divide_nan P m l :
  Numpy.isnan m = true → l ≠ [] →
  replace_all (λ c, divide P c m) l = (l, Some ValueError).
Proof.
  intros Hm Hl. destruct l as [|c l]; [done|].
  cbn. unfold divide. by rewrite Hm.
Qed.

Lemma replace_all_divide P m l :
  Numpy.isnan m = false →
  replace_all (λ c, divide P c m) l = (map (divided P m) l, None).
Proof.
  intros Hm. apply replace_all_Ok.
  apply Forall2_fmap_r, Forall_Forall2_diag, Forall_forall. intros c _.
  unfold divide. by rewrite Hm.
Qed.

(** [normalize] on a list object that is not empty: a median that is NaN
    stops the loop at its first division, before anything is stored;
    otherwise every element is replaced by its quotient. *)
Lemma normalize_spec P self c0 rest w :
  heap w !! self = Some (c0 :: rest) →
  KeckNIRSPECSpectrumList.normalize P self w
  = if Numpy.isnan (Numpy.nanmedian (flux c0))
    then (Err ValueError, w)
    else (Ok self,
          set_list w self (map (divided P (Numpy.nanmedian (flux c0))) (c0 :: rest))).
Proof.
  intros Hself. unfold KeckNIRSPECSpectrumList.normalize.
  rewrite (M_bind_Ok _ _ _ _ _ (getitem_spec self _ w Hself 0%nat c0 eq_refl)).
  rewrite (M_bind_Ok _ _ _ _ _ (len_spec self _ w Hself)).
  set (m := Numpy.nanmedian (flux c0)).
  pose proof (replace_loop (λ c, divide P c m) self w (c0 :: rest) []) as Hloop.
  cbn [app length] in Hloop. rewrite (set_list_id _ _ _ Hself) in Hloop.
  destruct (Numpy.isnan m) eqn:Hm.
  - rewrite (replace_all_divide_nan P m _ Hm) in Hloop by done.
    cbn [fst snd] in Hloop. rewrite (set_list_id _ _ _ Hself) in Hloop.
    by apply M_bind_Err.
  - rewrite (replace_all_divide P m _ Hm) in Hloop. cbn [fst snd] in Hloop.
    by rewrite (M_bind_Ok _ _ _ _ _ Hloop).
Qed.

(** ** Sorting and the middle value *)

Section Median.

Import Numpy.

Lemma count_Permutation p l l' : Permutation l l' → count p l = count p l'.
Proof. induction 1; cbn; lia. Qed.

Lemma count_le_length p l : (count p l ≤ length l)%nat.
Proof. induction l as [|x l IH]; cbn; [lia|]. destruct (p x); lia. Qed.

Lemma count_mono p q l :
  (∀ x, x ∈ l → p x = true → q x = true) → (count p l ≤ count q l)%nat.
Proof.
  induction l as [|x l IH]; intros H; cbn; [lia|].
  assert (count p l ≤ count q l)%nat by (apply IH; intros y Hy; apply H; by right).
  destruct (p x) eqn:Hp; [rewrite (H x) by (done || by left)|destruct (q x)]; lia.
Qed.

Lemma count_none p l : (∀ x, x ∈ l → p x = false) → count p l = 0%nat.
Proof.
  induction l as [|x l IH]; intros H; cbn; [done|].
  rewrite (H x) by by left. rewrite IH; [done|]. intros y Hy. apply H. by right.
Qed.

Lemma count_all p l : (∀ x, x ∈ l → p x = true) → count p l = length l.
Proof.
  induction l as [|x l IH]; intros H; cbn; [done|].
  rewrite (H x) by by left. rewrite IH; [done|]. intros y Hy. apply H. by right.
Qed.

Lemma count_map p (f : float64 → float64) l : count p (map f l) = count (λ x, p (f x)) l.
Proof. induction l as [|x l IH]; cbn; [done|]. by rewrite IH. Qed.

Lemma insert_Permutation x l : Permutation (insert x l) (x :: l).
Proof.
  induction l as [|y l IH]; cbn; [done|].
  destruct (leb x y); [done|]. rewrite IH. apply perm_swap.
Qed.

Lemma sort_Permutation l : Permutation (sort l) l.
Proof.
  induction l as [|x l IH]; cbn; [done|].
  rewrite insert_Permutation. by constructor.
Qed.

Lemma insert_sorted x l :
  not_nan x → Forall not_nan l → StronglySorted float_le l → StronglySorted float_le (insert x l).
Proof.
  intros Hx Hl Hs. induction Hs as [|y l Hs IH Hy]; cbn.
  { repeat constructor. }
  apply Forall_cons in Hl as [Hny Hl].
  destruct (leb x y) eqn:Hxy.
  - constructor; [by constructor|]. constructor; [done|].
    eapply Forall_impl; [exact Hy|]. intros z Hz. by eapply leb_trans.
  - constructor; [by apply IH|].
    rewrite insert_Permutation. constructor; [|done].
    by apply leb_total.
Qed.

Lemma sort_sorted l : Forall not_nan l → StronglySorted float_le (sort l).
Proof.
  induction l as [|x l IH]; intros H; cbn; [constructor|].
  apply Forall_cons in H as [Hx Hl].
  apply insert_sorted; [done| |by apply IH].
  by rewrite sort_Permutation.
Qed.

(** A value with at most [k] smaller entries is at most the entry of
    rank [k]; one with fewer than [length s - k] larger entries is at
    least that entry. *)
Lemma rank_lower t s : ∀ k y,
  StronglySorted float_le s → s !! k = Some y →
  (count (λ x, negb (leb t x)) s ≤ k)%nat → float_le t y.
Proof.
  induction s as [|a s IH]; intros k y Hs Hk Hc; [done|].
  apply StronglySorted_inv in Hs as [Hs Ha]. cbn in Hc.
  destruct (leb t a) eqn:Hta; cbn in Hc.
  - destruct k as [|k]; cbn in Hk.
    + by injection Hk as <-.
    + eapply leb_trans; [exact Hta|].
      rewrite Forall_forall in Ha. apply Ha. eapply list_elem_of_lookup_2, Hk.
  - destruct k as [|k]; [lia|]. apply (IH k); [done|done|lia].
Qed.

Lemma rank_upper t s : ∀ k y,
  StronglySorted float_le s → s !! k = Some y →
  (count (λ x, negb (leb x t)) s + k < length s)%nat → float_le y t.
Proof.
  induction s as [|a s IH]; intros k y Hs Hk Hc; [done|].
  apply StronglySorted_inv in Hs as [Hs Ha]. cbn in Hc.
  destruct k as [|k]; cbn in Hk.
  - injection Hk as <-. destruct (leb a t) eqn:Hat; [done|]. cbn in Hc.
    rewrite count_all in Hc; [lia|].
    intros x Hx. apply negb_true_iff. destruct (leb x t) eqn:Hxt; [|done].
    rewrite Forall_forall in Ha.
    rewrite (leb_trans a x t) in Hat; [done|by apply Ha|done].
  - apply (IH k); [done|done|]. destruct (negb (leb a t)); lia.
Qed.

Lemma rank_of_entry_lower m s : ∀ k,
  StronglySorted float_le s → Forall not_nan s → s !! k = Some m →
  (count (λ x, negb (leb m x)) s ≤ k)%nat.
Proof.
  induction s as [|a s IH]; intros k Hs Hn Hk; [done|].
  apply StronglySorted_inv in Hs as [Hs Ha]. apply Forall_cons in Hn as [Hna Hn].
  destruct k as [|k]; cbn in Hk |- *.
  - injection Hk as <-. rewrite leb_refl by done. cbn.
    rewrite count_none; [done|].
    intros x Hx. apply negb_false_iff. rewrite Forall_forall in Ha. by apply Ha.
  - specialize (IH k Hs Hn Hk). destruct (negb (leb m a)); lia.
Qed.

Lemma rank_of_entry_upper m s : ∀ k,
  StronglySorted float_le s → Forall not_nan s → s !! k = Some m →
  (count (λ x, negb (leb x m)) s + k < length s)%nat.
Proof.
  induction s as [|a s IH]; intros k Hs Hn Hk; [done|].
  apply StronglySorted_inv in Hs as [Hs Ha]. apply Forall_cons in Hn as [Hna Hn].
  destruct k as [|k]; cbn in Hk |- *.
  - injection Hk as <-. rewrite leb_refl by done. cbn.
    pose proof (count_le_length (λ x, negb (leb x a)) s). lia.
  - specialize (IH k Hs Hn Hk).
    rewrite Forall_forall in Ha.
    rewrite (Ha m) by (eapply list_elem_of_lookup_2, Hk). cbn. lia.
Qed.

End Median.

(** ** The middle values after a map *)

Section Middle_mapped.

Import Numpy.

Variable f : float64 → float64.
Variable v : list float64.
Hypothesis v_numbers : Forall not_nan v.
Hypothesis fv_numbers : Forall not_nan (map f v).

(** Where [f] keeps the order around the entry of rank [k], the entry of
    rank [k] of the images is the image of that entry, as a number. *)
Lemma middle_kept k t :
  sort v !! k = Some t →
  (∀ x, x ∈ v → (leb t x = true → leb (f t) (f x) = true) ∧
                (leb x t = true → leb (f x) (f t) = true)) →
  ∃ y, sort (map f v) !! k = Some y ∧ same_number y (f t).
Proof.
  intros Ht Hkeep.
  assert (Forall not_nan (sort v)) as Hsv by (by rewrite sort_Permutation).
  assert (length (sort (map f v)) = length v) as Hlen.
  { by rewrite (Permutation_length (sort_Permutation _)), length_map. }
  assert (length (sort v) = length v) as Hlen' by (by rewrite sort_Permutation).
  destruct (lookup_lt_is_Some_2 (sort (map f v)) k) as [y Hy].
  { rewrite Hlen, <- Hlen'. by eapply lookup_lt_Some. }
  exists y. split; [done|]. split.
  - apply (rank_upper _ (sort (map f v)) k); [by apply sort_sorted|done|].
    rewrite (count_Permutation _ _ _ (sort_Permutation _)), count_map, Hlen.
    pose proof (rank_of_entry_upper t (sort v) k (sort_sorted v v_numbers) Hsv Ht) as Hup.
    rewrite (count_Permutation _ _ _ (sort_Permutation v)), Hlen' in Hup.
    eapply Nat.le_lt_trans; [|exact Hup].
    apply Nat.add_le_mono_r. apply count_mono.
    intros x Hx. rewrite !negb_true_iff. intros Hfx.
    destruct (leb x t) eqn:Hxt; [|done].
    destruct (Hkeep x Hx) as [_ Hle]. by rewrite Hle in Hfx.
  - apply (rank_lower _ (sort (map f v)) k); [by apply sort_sorted|done|].
    rewrite (count_Permutation _ _ _ (sort_Permutation _)), count_map.
    pose proof (rank_of_entry_lower t (sort v) k (sort_sorted v v_numbers) Hsv Ht) as Hlo.
    rewrite (count_Permutation _ _ _ (sort_Permutation v)) in Hlo.
    etrans; [|exact Hlo]. apply count_mono.
    intros x Hx. rewrite !negb_true_iff. intros Hfx.
    destruct (leb t x) eqn:Htx; [|done].
    destruct (Hkeep x Hx) as [Hle _]. by rewrite Hle in Hfx.
Qed.

(** Where [f] reverses the order around the entry of rank [k], the image
    of that entry has the rank [k] counted from the other end. *)
Lemma middle_reversed k t :
  sort v !! k = Some t →
  (∀ x, x ∈ v → (leb t x = true → leb (f x) (f t) = true) ∧
                (leb x t = true → leb (f t) (f x) = true)) →
  ∃ y, sort (map f v) !! (length v - 1 - k)%nat = Some y ∧ same_number y (f t).
Proof.
  intros Ht Hrev.
  assert (Forall not_nan (sort v)) as Hsv by (by rewrite sort_Permutation).
  assert (length (sort (map f v)) = length v) as Hlen.
  { by rewrite (Permutation_length (sort_Permutation _)), length_map. }
  assert (length (sort v) = length v) as Hlen' by (by rewrite sort_Permutation).
  assert (k < length v)%nat as Hk by (rewrite <- Hlen'; by eapply lookup_lt_Some).
  destruct (lookup_lt_is_Some_2 (sort (map f v)) (length v - 1 - k)) as [y Hy].
  { rewrite Hlen. lia. }
  exists y. split; [done|]. split.
  - apply (rank_upper _ (sort (map f v)) (length v - 1 - k)); [by apply sort_sorted|done|].
    rewrite (count_Permutation _ _ _ (sort_Permutation _)), count_map, Hlen.
    pose proof (rank_of_entry_lower t (sort v) k (sort_sorted v v_numbers) Hsv Ht) as Hlo.
    rewrite (count_Permutation _ _ _ (sort_Permutation v)) in Hlo.
    assert (count (λ x, negb (leb (f x) (f t))) v ≤ count (λ x, negb (leb t x)) v)%nat; [|lia].
    apply count_mono.
    intros x Hx. rewrite !negb_true_iff. intros Hfx.
    destruct (leb t x) eqn:Htx; [|done].
    destruct (Hrev x Hx) as [Hle _]. by rewrite Hle in Hfx.
  - apply (rank_lower _ (sort (map f v)) (length v - 1 - k)); [by apply sort_sorted|done|].
    rewrite (count_Permutation _ _ _ (sort_Permutation _)), count_map.
    pose proof (rank_of_entry_upper t (sort v) k (sort_sorted v v_numbers) Hsv Ht) as Hup.
    rewrite (count_Permutation _ _ _ (sort_Permutation v)), Hlen' in Hup.
    assert (count (λ x, negb (leb (f t) (f x))) v ≤ count (λ x, negb (leb x t)) v)%nat; [|lia].
    apply count_mono.
    intros x Hx. rewrite !negb_true_iff. intros Hfx.
    destruct (leb x t) eqn:Hxt; [|done].
    destruct (Hrev x Hx) as [_ Hle]. by rewrite Hle in Hfx.
Qed.

End Middle_mapped.

(** ** The median after division *)

Section Median_divided.

Import Numpy.

Lemma div_nan x m : isnan x = true → isnan (div x m) = true.
Proof. by destruct x. Qed.

Lemma filter_divided m l :
  (∀ x, x ∈ l → isnan x = false → isnan (div x m) = false) →
  numbers (map (λ x, div x m) l) = map (λ x, div x m) (numbers l).
Proof.
  unfold numbers.
  induction l as [|x l IH]; intros H; [done|].
  cbn [map]. rewrite !filter_cons.
  assert (∀ y, y ∈ l → isnan y = false → isnan (div y m) = false) as Hl.
  { intros y Hy. apply H. by right. }
  destruct (isnan x) eqn:Hx.
  - rewrite (div_nan x m Hx). rewrite !decide_False by done. by apply IH.
  - rewrite (H x) by (done || by left). rewrite !decide_True by done.
    cbn [map]. by rewrite IH.
Qed.

Lemma numbers_not_nan l : Forall not_nan (numbers l).
Proof. apply Forall_forall. intros x Hx. by apply list_elem_of_filter in Hx as [? _]. Qed.

Lemma length_sort l : length (sort l) = length l.
Proof. by rewrite sort_Permutation. Qed.

Lemma nanmedian_odd l :
  Nat.odd (length (numbers l)) = true →
  sort (numbers l) !! (length (numbers l) / 2)%nat = Some (nanmedian l).
Proof.
  intros Hodd. unfold nanmedian. fold (numbers l).
  set (v := numbers l) in *.
  rewrite length_sort, Hodd.
  destruct (length v =? 0)%nat eqn:H0.
  { apply Nat.eqb_eq in H0. by rewrite H0 in Hodd. }
  apply Nat.eqb_neq in H0.
  rewrite nth_lookup.
  destruct (lookup_lt_is_Some_2 (sort v) (length v / 2)) as [y ->]; [|done].
  rewrite length_sort. apply Nat.div_lt; lia.
Qed.

Lemma nanmedian_even l :
  Nat.odd (length (numbers l)) = false → numbers l ≠ [] →
  ∃ a b, middle_pair l = Some (a, b) ∧
         sort (numbers l) !! (length (numbers l) / 2 - 1)%nat = Some a ∧
         sort (numbers l) !! (length (numbers l) / 2)%nat = Some b ∧
         nanmedian l = mean2 a b.
Proof.
  intros Hodd Hne. unfold nanmedian, middle_pair. fold (numbers l).
  set (v := numbers l) in *.
  rewrite !length_sort, Hodd.
  assert (length v ≠ 0)%nat as H0 by (by destruct v).
  rewrite (proj2 (Nat.eqb_neq _ _) H0).
  assert (length v / 2 < length v)%nat as Hhalf by (apply Nat.div_lt; lia).
  destruct (lookup_lt_is_Some_2 (sort v) (length v / 2 - 1)) as [a Ha];
    [rewrite length_sort; lia|].
  destruct (lookup_lt_is_Some_2 (sort v) (length v / 2)) as [b Hb];
    [rewrite length_sort; lia|].
  exists a, b. rewrite !nth_lookup, Ha, Hb. done.
Qed.

Lemma half_odd n : Nat.odd n = true → (n - 1 - n / 2 = n / 2)%nat.
Proof.
  intros [j ->]%Nat.odd_spec.
  replace (2 * j + 1)%nat with (1 + j * 2)%nat by lia.
  rewrite Nat.div_add by lia. cbn. lia.
Qed.

Lemma half_even n :
  Nat.odd n = false → n ≠ 0%nat →
  (n - 1 - (n / 2 - 1) = n / 2 ∧ n - 1 - n / 2 = n / 2 - 1)%nat.
Proof.
  intros Hodd Hn.
  assert (Nat.even n = true) as [j ->]%Nat.even_spec.
  { rewrite <- Nat.negb_odd. by rewrite Hodd. }
  replace (2 * j)%nat with (0 + j * 2)%nat by lia.
  rewrite Nat.div_add by lia. cbn. lia.
Qed.

Lemma add_comm x y : add x y = add y x.
Proof.
  destruct x as [[]|[]| |sx mx ex], y as [[]|[]| |sy my ey]; try reflexivity.
  unfold add, SFadd. by rewrite Z.min_comm, Z.add_comm.
Qed.

Lemma mean2_comm a b : mean2 a b = mean2 b a.
Proof. unfold mean2. by rewrite add_comm. Qed.

Lemma orders_numbers m t l :
  keeps_order_at m t l ∨ reverses_order_at m t l →
  ∀ x, x ∈ l → isnan x = false → isnan (div x m) = false.
Proof. intros [H|H] x Hx Hn; by destruct (H x Hx Hn). Qed.

(** An odd number of samples: the median of the quotients is the number
    [m / m]. *)
Lemma nanmedian_divided_odd l :
  Nat.odd (length (numbers l)) = true →
  keeps_order_at (nanmedian l) (nanmedian l) l ∨
  reverses_order_at (nanmedian l) (nanmedian l) l →
  same_number (nanmedian (map (λ x, div x (nanmedian l)) l))
              (div (nanmedian l) (nanmedian l)).
Proof.
  intros Hodd Horder.
  set (m := nanmedian l) in *. set (f := λ x, div x m).
  set (v := numbers l) in *.
  assert (numbers (map f l) = map f v) as Hfilter.
  { apply filter_divided. by apply (orders_numbers m m). }
  assert (Forall not_nan v) as Hv by apply numbers_not_nan.
  assert (Forall not_nan (map f v)) as Hv'.
  { rewrite <- Hfilter. apply numbers_not_nan. }
  assert (sort v !! (length v / 2)%nat = Some m) as Hm by (by apply nanmedian_odd).
  assert (sort (map f v) !! (length v / 2)%nat = Some (nanmedian (map f l))) as Hy.
  { pose proof (nanmedian_odd (map f l)) as H.
    rewrite Hfilter, length_map in H. by apply H. }
  assert (∀ x, x ∈ v → not_nan x ∧ x ∈ l) as Hvl.
  { intros x Hx. by apply list_elem_of_filter in Hx. }
  destruct Horder as [Hkeep|Hrev].
  - destruct (middle_kept f v Hv Hv' _ _ Hm) as (y & Hy' & Hsame).
    { intros x Hx. destruct (Hvl x Hx) as [Hn Hl].
      destruct (Hkeep x Hl Hn) as (_ & H1 & H2). done. }
    rewrite Hy in Hy'. by injection Hy' as <-.
  - destruct (middle_reversed f v Hv Hv' _ _ Hm) as (y & Hy' & Hsame).
    { intros x Hx. destruct (Hvl x Hx) as [Hn Hl].
      destruct (Hrev x Hl Hn) as (_ & H1 & H2). done. }
    rewrite half_odd in Hy' by done.
    rewrite Hy in Hy'. by injection Hy' as <-.
Qed.

(** An even number of samples with the middle values [a] and [b]: the
    median of the quotients is the mean of two numbers that are [a / m]
    and [b / m]. *)
Lemma nanmedian_divided_even l a b :
  Nat.odd (length (numbers l)) = false →
  middle_pair l = Some (a, b) →
  (keeps_order_at (nanmedian l) a l ∧ keeps_order_at (nanmedian l) b l) ∨
  (reverses_order_at (nanmedian l) a l ∧ reverses_order_at (nanmedian l) b l) →
  ∃ qa qb,
    same_number qa (div a (nanmedian l)) ∧ same_number qb (div b (nanmedian l)) ∧
    nanmedian (map (λ x, div x (nanmedian l)) l) = mean2 qa qb.
Proof.
  intros Hodd Hmid Horder.
  set (m := nanmedian l) in *. set (f := λ x, div x m).
  set (v := numbers l) in *.
  assert (v ≠ []) as Hne.
  { intros Hnil. unfold middle_pair in Hmid. fold v in Hmid. by rewrite Hnil in Hmid. }
  destruct (nanmedian_even l Hodd Hne) as (a' & b' & Hmid' & Ha & Hb & _).
  rewrite Hmid in Hmid'. injection Hmid' as <- <-.
  assert (numbers (map f l) = map f v) as Hfilter.
  { apply filter_divided. destruct Horder as [[H _]|[H _]].
    - apply (orders_numbers m a). by left.
    - apply (orders_numbers m a). by right. }
  assert (Forall not_nan v) as Hv by apply numbers_not_nan.
  assert (Forall not_nan (map f v)) as Hv'.
  { rewrite <- Hfilter. apply numbers_not_nan. }
  assert (Nat.odd (length (numbers (map f l))) = false) as Hodd'.
  { by rewrite Hfilter, length_map. }
  assert (numbers (map f l) ≠ []) as Hne'.
  { rewrite Hfilter. by destruct v. }
  destruct (nanmedian_even (map f l) Hodd' Hne') as (q1 & q2 & _ & Hq1 & Hq2 & Hmed).
  rewrite Hfilter, length_map in Hq1, Hq2. fold v in Ha, Hb.
  assert (∀ x, x ∈ v → not_nan x ∧ x ∈ l) as Hvl.
  { intros x Hx. by apply list_elem_of_filter in Hx. }
  assert (length v ≠ 0)%nat as Hlen by (by destruct v).
  destruct Horder as [[Hka Hkb]|[Hra Hrb]].
  - destruct (middle_kept f v Hv Hv' _ _ Ha) as (y1 & Hy1 & Hs1).
    { intros x Hx. destruct (Hvl x Hx) as [Hn Hl].
      destruct (Hka x Hl Hn) as (_ & H1 & H2). done. }
    destruct (middle_kept f v Hv Hv' _ _ Hb) as (y2 & Hy2 & Hs2).
    { intros x Hx. destruct (Hvl x Hx) as [Hn Hl].
      destruct (Hkb x Hl Hn) as (_ & H1 & H2). done. }
    rewrite Hq1 in Hy1. rewrite Hq2 in Hy2. injection Hy1 as <-. injection Hy2 as <-.
    by exists q1, q2.
  - destruct (middle_reversed f v Hv Hv' _ _ Ha) as (y1 & Hy1 & Hs1).
    { intros x Hx. destruct (Hvl x Hx) as [Hn Hl].
      destruct (Hra x Hl Hn) as (_ & H1 & H2). done. }
    destruct (middle_reversed f v Hv Hv' _ _ Hb) as (y2 & Hy2 & Hs2).
    { intros x Hx. destruct (Hvl x Hx) as [Hn Hl].
      destruct (Hrb x Hl Hn) as (_ & H1 & H2). done. }
    destruct (half_even (length v) Hodd Hlen) as [E1 E2].
    rewrite E1 in Hy1. rewrite E2 in Hy2.
    rewrite Hq2 in Hy1. rewrite Hq1 in Hy2. injection Hy1 as <-. injection Hy2 as <-.
    exists q2, q1. split; [done|]. split; [done|]. by rewrite mean2_comm.
Qed.

End Median_divided.

(** ** The claim about [normalize] *)

Lemma nanmedian_odd_elem l :
  Nat.odd (length (numbers l)) = true → Numpy.nanmedian l ∈ l.
Proof.
  intros Hodd. pose proof (nanmedian_odd l Hodd) as Hm.
  apply list_elem_of_lookup_2 in Hm. rewrite sort_Permutation in Hm.
  by apply list_elem_of_filter in Hm as [_ ?].
Qed.



Lemma orders_63 :
  Nat.odd (length (numbers (flux Examples.c63))) = true ∧
  Forall is_binary64 (flux Examples.c63) ∧
  finite_nonzero (Numpy.nanmedian (flux Examples.c63)).
Proof. split; [vm_compute; reflexivity|]. split; [|exact I]. repeat constructor. Qed.

Lemma orders_negative :
  Nat.odd (length (numbers (flux Examples_median.c_negative))) = true ∧
  Forall is_binary64 (flux Examples_median.c_negative) ∧
  finite_nonzero (Numpy.nanmedian (flux Examples_median.c_negative)).
Proof. split; [vm_compute; reflexivity|]. split; [|exact I]. repeat constructor. Qed.

Lemma orders_even :
  Nat.odd (length (numbers (flux Examples_median.c_even))) = false ∧
  middle_pair (flux Examples_median.c_even) = Some (Numpy.of_Z 2, Numpy.of_Z 3) ∧
  keeps_order_at (Numpy.nanmedian (flux Examples_median.c_even)) (Numpy.of_Z 2)
                 (flux Examples_median.c_even) ∧
  keeps_order_at (Numpy.nanmedian (flux Examples_median.c_even)) (Numpy.of_Z 3)
                 (flux Examples_median.c_even).
Proof.
  split; [vm_compute; reflexivity|]. split; [vm_compute; reflexivity|].
  assert (Numpy.nanmedian (flux Examples_median.c_even)
          = Numpy.div (Numpy.of_Z 5) (Numpy.of_Z 2)) as -> by (vm_compute; reflexivity).
  assert (flux Examples_median.c_even
          = [Numpy.nan; Numpy.of_Z 1; Numpy.of_Z 5; Numpy.of_Z 2; Numpy.nan; Numpy.of_Z 3])
    as -> by reflexivity.
  split; intros x Hx Hn;
    repeat (apply elem_of_cons in Hx as [->|Hx]); try (by apply elem_of_nil in Hx);
    try discriminate Hn;
    (split; [vm_compute; reflexivity|]);
    split; intros H; first [vm_compute; reflexivity | vm_compute in H; discriminate].
Qed.


Example normalize_two_orders :
  ∃ w' c0' c1',
    KeckNIRSPECSpectrumList.normalize keep_first 2 Examples_list.world = (Ok 2%positive, w') ∧
    heap w' !! 2%positive = Some [c0'; c1'] ∧
    flux c0' = [Numpy.one; Numpy.div Numpy.one Numpy.two; Numpy.div (Numpy.of_Z 3) Numpy.two] ∧
    flux c1' = [Numpy.div (Numpy.of_Z 8) (Numpy.of_Z 6); Numpy.div (Numpy.of_Z 4) (Numpy.of_Z 6)].
Proof.
  set (m := Numpy.of_Z 6).
  exists (set_list Examples_list.world 2
            [divided keep_first m Examples.c63; divided keep_first m Examples_list.c64]),
         (divided keep_first m Examples.c63), (divided keep_first m Examples_list.c64).
  repeat split; vm_compute; reflexivity.
Qed.

(** The median afterwards on the orders of [Examples_median], by
    computation: exactly 1.0 also for the even number of flux values. *)
Example normalize_median_examples :
  Numpy.nanmedian (map (λ x, Numpy.div x (Numpy.nanmedian (flux Examples_median.c_negative)))
                       (flux Examples_median.c_negative)) = Numpy.one ∧
  Numpy.nanmedian (map (λ x, Numpy.div x (Numpy.nanmedian (flux Examples_median.c_even)))
                       (flux Examples_median.c_even)) = Numpy.one.
Proof. split; vm_compute; reflexivity. Qed.

(** A median that is zero or infinite is not sent to 1.0. *)
Example division_by_zero_or_infinity :
  Numpy.div Numpy.zero Numpy.zero = Numpy.nan ∧
  Numpy.div (S754_infinity false) (S754_infinity false) = Numpy.nan.
Proof. split; reflexivity. Qed.

(** ** Further properties of the loader *)

(** The assertion of [read] and the one of the constructor ask for
    different names: a path that the constructor accepts and that does not
    contain [.flux_tbl.fits], with the dot, makes [read] fail its
    assertion. *)
Theorem read_asks_for_dotted_name
    (fs : gmap string File) (f : string) (c : Container) (w : World) :
  KeckNIRSPECSpectrum.init_file fs f = Ok c →
  PyStr.contains ".flux_tbl.fits" f = false →
  KeckNIRSPECSpectrumList.read fs [f] w = (Err (AssertionError ""), w).
Proof.
  intros _ Hdot. unfold KeckNIRSPECSpectrumList.read.
  apply M_bind_Err. unfold lift. f_equal.
  cbn. by rewrite Hdot.
Qed.

Lemma read_asks_for_dotted_name_witness :
  KeckNIRSPECSpectrumList.read Examples.fs [Examples.file63] Examples.world0
  = (Err (AssertionError ""), Examples.world0).
Proof.
  apply (read_asks_for_dotted_name Examples.fs Examples.file63 Examples.c63 Examples.world0).
  - vm_compute. reflexivity.
  - vm_compute. reflexivity.
Defined.

Lemma digit_of_range c d : PyStr.digit_of c = Some d → 0 ≤ d ≤ 9.
Proof.
  unfold PyStr.digit_of. intros H.
  destruct (andb _ _) eqn:E; [|discriminate]. injection H as <-.
  apply andb_true_iff in E as [E1 E2]. apply Z.leb_le in E1, E2. lia.
Qed.

(** When the last two characters of the stem are decimal digits, the
    order number is the number they write. *)
Theorem order_number_of_two_digits
    (fs : gmap string File) (file : string) (c : Container) (c1 c2 : ascii) (d1 d2 : Z) :
  KeckNIRSPECSpectrum.init_file fs file = Ok c →
  PyStr.suffix 2 (file_stem file) = String c1 (String c2 "") →
  PyStr.digit_of c1 = Some d1 → PyStr.digit_of c2 = Some d2 →
  meta c !! "m" = Some (MInt (10 * d1 + d2)) ∧ 0 ≤ 10 * d1 + d2 ≤ 99.
Proof.
  intros (m & hdr & w & h & rows & _ & _ & Hint & _ & ->)%init_file_Ok Hsuf H1 H2.
  rewrite Hsuf, (int_two_digits _ _ _ _ H1 H2) in Hint. injection Hint as <-.
  split.
  - unfold primary_of. cbn. rewrite lookup_insert_ne by done. apply meta_dict_m.
  - apply digit_of_range in H1, H2. lia.
Qed.

Lemma order_number_of_two_digits_witness :
  meta Examples.c63 !! "m" = Some (MInt (10 * 6 + 3)) ∧ 0 ≤ 10 * 6 + 3 ≤ 99.
Proof.
  apply (order_number_of_two_digits Examples.fs Examples.file63 Examples.c63 "6" "3" 6 3).
  - vm_compute. reflexivity.
  - vm_compute. reflexivity.
  - reflexivity.
  - reflexivity.
Defined.

Example split_examples :
  PyStr.split "/" "/d/fitstbl/NS.1_63_flux_tbl.fits" = [""; "d"; "fitstbl"; "NS.1_63_flux_tbl.fits"] ∧
  PyStr.split "_flux" "NS.1_63_flux_tbl.fits" = ["NS.1_63"; "_tbl.fits"] ∧
  PyStr.split "/" "NS.1_63_flux_tbl.fits" = ["NS.1_63_flux_tbl.fits"] ∧
  PyStr.suffix 2 "NS.1_63" = "63" ∧ PyStr.take 3 "NS.1_63" = "NS.".
Proof. repeat split; reflexivity. Qed.

Example replace_example :
  PyStr.replace "_flux_tbl." "_flux." (PyStr.replace "/fitstbl/" "/fits/" "/d/fitstbl/NS.1_63_flux_tbl.fits")
  = "/d/fits/NS.1_63_flux.fits".
Proof. reflexivity. Qed.

(** ** The checks of the constructor, in their order *)

Lemma init_file_after_name_checks fs file m :
  starts_NS file = true → names_table file = true → order_of file = Some m →
  KeckNIRSPECSpectrum.init_file fs file
  = (assert (KeckNIRSPECSpectrum.exists_ fs file) must_exist ;;
     hdu ← KeckNIRSPECSpectrum.fits_open fs file;
     hdu0 ← from_option IndexError (snd hdu);
     hdr_wcs ←
       (if KeckNIRSPECSpectrum.exists_ fs (companion_path file)
        then hdu_hdr ← KeckNIRSPECSpectrum.fits_open fs (companion_path file);
             Ok (MHeader (fst hdu_hdr), Some {| wcs_header := fst hdu_hdr |})
        else Ok (MNone, None));
     Ok (primary_of m (fst hdr_wcs) (snd hdr_wcs) hdu0)).
Proof.
  unfold starts_NS, names_table, order_of, file_stem, basename.
  intros Hns Htbl Hint. unfold KeckNIRSPECSpectrum.init_file.
  rewrite Hns, Htbl, Hint. reflexivity.
Qed.

(** The name of a path is checked before the file system is looked at:
    whatever the files are, a base name that does not start with [NS.]
    fails the first assertion, one that starts with it but does not
    contain [_flux_tbl.fits] fails the second, and one that passes both
    but whose stem does not end in an integer raises [ValueError]. *)
Theorem init_file_checks_name_first (fs : gmap string File) (file : string) :
  (starts_NS file = false →
   KeckNIRSPECSpectrum.init_file fs file = Err (AssertionError only_nsdrp)) ∧
  (starts_NS file = true → names_table file = false →
   KeckNIRSPECSpectrum.init_file fs file = Err (AssertionError only_tables)) ∧
  (starts_NS file = true → names_table file = true → order_of file = None →
   KeckNIRSPECSpectrum.init_file fs file = Err ValueError).
Proof.
  unfold starts_NS, names_table, order_of, file_stem, basename,
    KeckNIRSPECSpectrum.init_file.
  split; [|split].
  - by intros ->.
  - by intros -> ->.
  - by intros -> -> ->.
Qed.

Lemma init_file_checks_name_first_witness :
  KeckNIRSPECSpectrum.init_file Examples.fs "/d/fitstbl/XS.1_63_flux_tbl.fits"
    = Err (AssertionError only_nsdrp) ∧
  KeckNIRSPECSpectrum.init_file Examples.fs "/d/fitstbl/NS.1_63_flux.fits"
    = Err (AssertionError only_tables) ∧
  KeckNIRSPECSpectrum.init_file ∅ "/d/fitstbl/NS.1_6x_flux_tbl.fits" = Err ValueError.
Proof.
  split; [|split].
  - apply (proj1 (init_file_checks_name_first Examples.fs "/d/fitstbl/XS.1_63_flux_tbl.fits")).
    reflexivity.
  - apply (proj1 (proj2 (init_file_checks_name_first Examples.fs "/d/fitstbl/NS.1_63_flux.fits")));
      reflexivity.
  - apply (proj2 (proj2 (init_file_checks_name_first ∅ "/d/fitstbl/NS.1_6x_flux_tbl.fits")));
      reflexivity.
Defined.

(** Once the name is accepted, a missing file fails the third assertion,
    a file that is no FITS file raises [OSError], and a FITS file without
    a table extension raises [IndexError]. *)
Theorem init_file_file_errors (fs : gmap string File) (file : string) (m : Z) :
  starts_NS file = true → names_table file = true → order_of file = Some m →
  (fs !! file = None →
   KeckNIRSPECSpectrum.init_file fs file = Err (AssertionError must_exist)) ∧
  (fs !! file = Some NotFits → KeckNIRSPECSpectrum.init_file fs file = Err OSError) ∧
  (∀ h, fs !! file = Some (Fits h None) →
        KeckNIRSPECSpectrum.init_file fs file = Err IndexError).
Proof.
  intros Hns Htbl Hint. rewrite (init_file_after_name_checks fs file m Hns Htbl Hint).
  unfold KeckNIRSPECSpectrum.exists_, KeckNIRSPECSpectrum.fits_open.
  split; [|split].
  - by intros ->.
  - by intros ->.
  - by intros h ->.
Qed.

Lemma init_file_file_errors_witness :
  KeckNIRSPECSpectrum.init_file Examples_header.fs "/d/fitstbl/NS.2_74_flux_tbl.fits"
    = Err (AssertionError must_exist) ∧
  KeckNIRSPECSpectrum.init_file Examples_header.fs "/d/fitstbl/NS.2_73_flux_tbl.fits" = Err OSError ∧
  KeckNIRSPECSpectrum.init_file Examples_header.fs "/d/fitstbl/NS.2_72_flux_tbl.fits" = Err IndexError.
Proof.
  split; [|split].
  - apply (proj1 (init_file_file_errors Examples_header.fs "/d/fitstbl/NS.2_74_flux_tbl.fits" 74
                    eq_refl eq_refl eq_refl)).
    vm_compute. reflexivity.
  - apply (proj1 (proj2 (init_file_file_errors Examples_header.fs "/d/fitstbl/NS.2_73_flux_tbl.fits" 73
                           eq_refl eq_refl eq_refl))).
    vm_compute. reflexivity.
  - apply (proj2 (proj2 (init_file_file_errors Examples_header.fs "/d/fitstbl/NS.2_72_flux_tbl.fits" 72
                           eq_refl eq_refl eq_refl)) ∅).
    vm_compute. reflexivity.
Defined.

Lemma init_file_by_companion fs file m h rows :
  starts_NS file = true → names_table file = true → order_of file = Some m →
  fs !! file = Some (Fits h (Some rows)) →
  KeckNIRSPECSpectrum.init_file fs file
  = match fs !! companion_path file with
    | None => Ok (primary_of m MNone None rows)
    | Some (Fits h' _) => Ok (primary_of m (MHeader h') (Some {| wcs_header := h' |}) rows)
    | Some NotFits => Err OSError
    end.
Proof.
  intros Hns Htbl Hint Hfile.
  rewrite (init_file_after_name_checks fs file m Hns Htbl Hint).
  unfold KeckNIRSPECSpectrum.exists_, KeckNIRSPECSpectrum.fits_open.
  rewrite Hfile. by destruct (fs !! companion_path file) as [[h' t|]|].
Qed.

(** The companion file decides the header: without it the container is
    built with no header and no world coordinates; a companion that
    exists and is no FITS file makes the construction fail with
    [OSError]; with a FITS companion, a construction that succeeds has
    stored the companion's primary header and the coordinates built from
    it. *)
Theorem init_file_companion
    (fs : gmap string File) (file : string) (m : Z)
    (h : gmap string HeaderValue) (rows : list Row) :
  starts_NS file = true → names_table file = true → order_of file = Some m →
  fs !! file = Some (Fits h (Some rows)) →
  (fs !! companion_path file = None →
   KeckNIRSPECSpectrum.init_file fs file = Ok (primary_of m MNone None rows)) ∧
  (fs !! companion_path file = Some NotFits →
   KeckNIRSPECSpectrum.init_file fs file = Err OSError) ∧
  (∀ h' t c, fs !! companion_path file = Some (Fits h' t) →
     KeckNIRSPECSpectrum.init_file fs file = Ok c →
     c = primary_of m (MHeader h') (Some {| wcs_header := h' |}) rows).
Proof.
  intros Hns Htbl Hint Hfile.
  rewrite (init_file_by_companion fs file m h rows Hns Htbl Hint Hfile).
  split; [|split].
  - by intros ->.
  - by intros ->.
  - intros h' t c ->. by intros [= <-].
Qed.

(** The sky container is aligned with the primary one: same spectral
    axis, same uncertainty, same mask (computed from the primary flux),
    no world coordinates, the primary's metadata without its [sky]
    entry, and the sky column of the table as flux. *)
Theorem sky_shares_alignment (fs : gmap string File) (file : string) (c : Container) :
  KeckNIRSPECSpectrum.init_file fs file = Ok c →
  ∃ s h rows,
    KeckNIRSPECSpectrum.sky c = Ok (MSpectrum s) ∧
    fs !! file = Some (Fits h (Some rows)) ∧
    flux s = map sky_cnts rows ∧
    spectral_axis s = spectral_axis c ∧
    uncertainty s = uncertainty c ∧
    mask s = mask c ∧
    wcs s = None ∧
    meta s = delete "sky" (meta c).
Proof.
  intros (m & hdr & w & h & rows & _ & _ & _ & Hfile & ->)%init_file_Ok.
  exists (sky_of m hdr rows), h, rows.
  split; [apply primary_sky|]. split; [done|].
  unfold primary_of, sky_of. cbn.
  repeat split; try done.
Qed.

Lemma init_file_companion_witness :
  KeckNIRSPECSpectrum.init_file Examples.fs Examples.file63
    = Ok (primary_of 63 MNone None Examples.table63) ∧
  KeckNIRSPECSpectrum.init_file Examples_header.fs "/e/fitstbl/NS.3_71_flux_tbl.fits" = Err OSError ∧
  Examples_header.c70
    = primary_of 70 (MHeader Examples_header.header70)
                 (Some {| wcs_header := Examples_header.header70 |}) Examples.table64.
Proof.
  split; [|split].
  - apply (proj1 (init_file_companion Examples.fs Examples.file63 63 ∅ Examples.table63
                    eq_refl eq_refl eq_refl ltac:(vm_compute; reflexivity))).
    vm_compute. reflexivity.
  - apply (proj1 (proj2 (init_file_companion Examples_header.fs "/e/fitstbl/NS.3_71_flux_tbl.fits" 71 ∅
                           Examples.table64 eq_refl eq_refl eq_refl
                           ltac:(vm_compute; reflexivity)))).
    vm_compute. reflexivity.
  - apply (proj2 (proj2 (init_file_companion Examples_header.fs Examples_header.file70 70 ∅
                           Examples.table64 eq_refl eq_refl eq_refl
                           ltac:(vm_compute; reflexivity))) Examples_header.header70 None).
    + vm_compute. reflexivity.
    + vm_compute. reflexivity.
Defined.

Lemma sky_shares_alignment_witness :
  ∃ s h rows,
    KeckNIRSPECSpectrum.sky Examples.c63 = Ok (MSpectrum s) ∧
    Examples.fs !! Examples.file63 = Some (Fits h (Some rows)) ∧
    flux s = map sky_cnts rows ∧
    spectral_axis s = spectral_axis Examples.c63 ∧
    uncertainty s = uncertainty Examples.c63 ∧
    mask s = mask Examples.c63 ∧
    wcs s = None ∧
    meta s = delete "sky" (meta Examples.c63).
Proof.
  apply (sky_shares_alignment Examples.fs Examples.file63 Examples.c63).
  vm_compute. reflexivity.
Defined.

(** ** The header properties *)

Lemma init_file_header fs file c :
  KeckNIRSPECSpectrum.init_file fs file = Ok c →
  meta c !! "header"
  = Some (match fs !! companion_path file with
          | Some (Fits h _) => MHeader h
          | _ => MNone
          end).
Proof.
  intros Hinit.
  destruct (init_file_Ok _ _ _ Hinit) as (m & hdr & w & h & rows & Hns & Htbl & Hint & Hfile & _).
  rewrite (init_file_by_companion fs file m h rows Hns Htbl Hint Hfile) in Hinit.
  assert (∀ hdr w, meta (primary_of m hdr w rows) !! "header" = Some hdr) as Hmeta.
  { intros hdr' w'. unfold primary_of, meta_dict. cbn.
    rewrite lookup_insert_ne by done. by rewrite lookup_insert_eq. }
  destruct (fs !! companion_path file) as [[h' t|]|] eqn:Hc.
  - injection Hinit as <-. apply Hmeta.
  - discriminate.
  - injection Hinit as <-. apply Hmeta.
Qed.

(** On a container constructed from a file, [RA], [DEC] and
    [astropy_time] need the companion file: without it the stored header
    is [None] and each of them raises [TypeError]; with it each raises
    [KeyError] when the header lacks its card, and otherwise converts the
    card. *)
Theorem header_properties_need_the_companion
    {Q T : Type} (H : HeaderConversions Q T)
    (fs : gmap string File) (file : string) (c : Container) :
  KeckNIRSPECSpectrum.init_file fs file = Ok c →
  (fs !! companion_path file = None →
   KeckNIRSPECSpectrum.RA H c = Err TypeError ∧
   KeckNIRSPECSpectrum.DEC H c = Err TypeError ∧
   KeckNIRSPECSpectrum.astropy_time H c = Err TypeError) ∧
  (∀ h t, fs !! companion_path file = Some (Fits h t) →
     KeckNIRSPECSpectrum.RA H c
       = match h !! "RA" with
         | Some card => times_unit H card "hourangle"
         | None => Err (KeyError "RA")
         end ∧
     KeckNIRSPECSpectrum.DEC H c
       = match h !! "DEC" with
         | Some card => times_unit H card "deg"
         | None => Err (KeyError "DEC")
         end ∧
     KeckNIRSPECSpectrum.astropy_time H c
       = match h !! "MJD-OBS" with
         | Some mjd => time_of_mjd H mjd
         | None => Err (KeyError "MJD-OBS")
         end).
Proof.
  intros Hhdr%init_file_header.
  unfold KeckNIRSPECSpectrum.RA, KeckNIRSPECSpectrum.DEC, KeckNIRSPECSpectrum.astropy_time,
    KeckNIRSPECSpectrum.header_getitem, KeckNIRSPECSpectrum.meta_getitem.
  rewrite Hhdr. split.
  - by intros ->.
  - intros h t ->. cbn.
    by destruct (h !! "RA"), (h !! "DEC"), (h !! "MJD-OBS").
Qed.

Lemma header_properties_witness :
  (KeckNIRSPECSpectrum.RA Examples_header.conversions Examples.c63 = Err TypeError ∧
   KeckNIRSPECSpectrum.DEC Examples_header.conversions Examples.c63 = Err TypeError ∧
   KeckNIRSPECSpectrum.astropy_time Examples_header.conversions Examples.c63 = Err TypeError) ∧
  (KeckNIRSPECSpectrum.RA Examples_header.conversions Examples_header.c70
     = Ok (HFloat (Numpy.of_Z 12), "hourangle") ∧
   KeckNIRSPECSpectrum.DEC Examples_header.conversions Examples_header.c70
     = Ok (HFloat (Numpy.of_Z 30), "deg") ∧
   KeckNIRSPECSpectrum.astropy_time Examples_header.conversions Examples_header.c70
     = Err (KeyError "MJD-OBS")).
Proof.
  split.
  - apply (proj1 (header_properties_need_the_companion Examples_header.conversions
                    Examples.fs Examples.file63 Examples.c63 ltac:(vm_compute; reflexivity))).
    vm_compute. reflexivity.
  - apply (proj2 (header_properties_need_the_companion Examples_header.conversions
                    Examples_header.fs Examples_header.file70 Examples_header.c70
                    ltac:(vm_compute; reflexivity)) Examples_header.header70 None).
    vm_compute. reflexivity.
Defined.

(** ** Forced sky subtraction at the edges *)

Lemma sky_subtract_no_sky P c w :
  meta c !! "sky" = None →
  KeckNIRSPECSpectrum.sky_subtract P c true w
  = (Err (KeyError "sky"), add_log w WARNING forced_subtraction).
Proof.
  intros Hsky. unfold KeckNIRSPECSpectrum.sky_subtract.
  rewrite (M_bind_Ok _ _ _ _ _ (emit_spec _ _ _)).
  apply M_bind_Err. unfold lift, KeckNIRSPECSpectrum.sky, KeckNIRSPECSpectrum.meta_getitem.
  by rewrite Hsky.
Qed.

(** The sky container of a file-constructed container cannot itself be
    sky subtracted: with [force=True] the warning is logged and
    [KeyError] is raised for [sky]. *)
Theorem forced_subtraction_of_the_sky_raises
    (P : Propagation) (fs : gmap string File) (file : string) (c : Container) (w : World) :
  KeckNIRSPECSpectrum.init_file fs file = Ok c →
  ∃ s, KeckNIRSPECSpectrum.sky c = Ok (MSpectrum s) ∧
       KeckNIRSPECSpectrum.sky_subtract P s true w
       = (Err (KeyError "sky"), add_log w WARNING forced_subtraction).
Proof.
  intros (m & hdr & wc & h & rows & _ & _ & _ & _ & ->)%init_file_Ok.
  exists (sky_of m hdr rows). split; [apply primary_sky|].
  apply sky_subtract_no_sky. apply meta_dict_sky.
Qed.

Lemma forced_subtraction_of_the_sky_witness :
  ∃ s, KeckNIRSPECSpectrum.sky Examples.c63 = Ok (MSpectrum s) ∧
       KeckNIRSPECSpectrum.sky_subtract keep_first s true Examples.world0
       = (Err (KeyError "sky"), add_log Examples.world0 WARNING forced_subtraction).
Proof.
  apply (forced_subtraction_of_the_sky_raises keep_first Examples.fs Examples.file63).
  vm_compute. reflexivity.
Defined.

(** Forced subtraction can be repeated, and each call subtracts the sky
    once more: the result keeps the metadata, and with it the sky
    container, of the container it came from. *)
Theorem forced_subtraction_twice
    (P : Propagation) (fs : gmap string File) (file : string) (c : Container) (w : World) :
  KeckNIRSPECSpectrum.init_file fs file = Ok c →
  ∃ s r1 r2,
    KeckNIRSPECSpectrum.sky c = Ok (MSpectrum s) ∧
    (r1 ← KeckNIRSPECSpectrum.sky_subtract P c true;
     KeckNIRSPECSpectrum.sky_subtract P r1 true) w
    = (Ok r2, add_log (add_log w WARNING forced_subtraction) WARNING forced_subtraction) ∧
    KeckNIRSPECSpectrum.sky_subtract P c true w = (Ok r1, add_log w WARNING forced_subtraction) ∧
    KeckNIRSPECSpectrum.sky r2 = Ok (MSpectrum s) ∧
    ∀ i, (i < length (flux c))%nat →
      ∃ f g, flux c !! i = Some f ∧ flux s !! i = Some g ∧
             flux r2 !! i = Some (Numpy.sub (Numpy.sub f g) g).
Proof.
  intros (m & hdr & wc & h & rows & _ & _ & _ & _ & ->)%init_file_Ok.
  set (c := primary_of m hdr wc rows). set (s := sky_of m hdr rows).
  assert (length (flux c) = length (flux s)) as Hlen.
  { unfold c, s, primary_of, sky_of. cbn. by rewrite !length_map. }
  assert (KeckNIRSPECSpectrum.sky c = Ok (MSpectrum s)) as Hsky by apply primary_sky.
  assert (subtract P c s = Ok (Spectrum (spectral_axis c) (zip_with Numpy.sub (flux c) (flux s))
            (sub_uncertainty P c s) (sub_mask P c s) (wcs c) (meta c))) as Hsub1.
  { unfold subtract. by rewrite bool_decide_eq_true_2. }
  set (r1 := Spectrum (spectral_axis c) (zip_with Numpy.sub (flux c) (flux s))
            (sub_uncertainty P c s) (sub_mask P c s) (wcs c) (meta c)) in *.
  assert (KeckNIRSPECSpectrum.sky r1 = Ok (MSpectrum s)) as Hsky1 by exact Hsky.
  assert (length (flux r1) = length (flux s)) as Hlen1.
  { unfold r1. cbn [flux]. rewrite length_zip_with. fold (flux c) (flux s). lia. }
  assert (subtract P r1 s = Ok (Spectrum (spectral_axis r1) (zip_with Numpy.sub (flux r1) (flux s))
            (sub_uncertainty P r1 s) (sub_mask P r1 s) (wcs r1) (meta r1))) as Hsub2.
  { unfold subtract. by rewrite bool_decide_eq_true_2. }
  eexists s, r1, _. split; [done|].
  pose proof (sky_subtract_forced P c s w _ Hsky Hsub1) as Hrun1.
  split; [|split; [exact Hrun1|split]].
  - rewrite (M_bind_Ok _ _ _ _ _ Hrun1).
    apply (sky_subtract_forced P r1 s _ _ Hsky1 Hsub2).
  - exact Hsky.
  - intros i Hi.
    destruct (lookup_lt_is_Some_2 (flux c) i Hi) as [f Hf].
    destruct (lookup_lt_is_Some_2 (flux s) i) as [g Hg]; [lia|].
    exists f, g. split; [done|]. split; [done|].
    cbn [flux]. apply lookup_zip_with_Some. exists (Numpy.sub f g), g.
    split; [done|]. split; [|done].
    unfold r1. cbn [flux]. apply lookup_zip_with_Some. by exists f, g.
Qed.

Lemma forced_subtraction_twice_witness :
  ∃ s r1 r2,
    KeckNIRSPECSpectrum.sky Examples.c63 = Ok (MSpectrum s) ∧
    (r1 ← KeckNIRSPECSpectrum.sky_subtract keep_first Examples.c63 true;
     KeckNIRSPECSpectrum.sky_subtract keep_first r1 true) Examples.world0
    = (Ok r2, add_log (add_log Examples.world0 WARNING forced_subtraction) WARNING forced_subtraction) ∧
    KeckNIRSPECSpectrum.sky_subtract keep_first Examples.c63 true Examples.world0
    = (Ok r1, add_log Examples.world0 WARNING forced_subtraction) ∧
    KeckNIRSPECSpectrum.sky r2 = Ok (MSpectrum s) ∧
    ∀ i, (i < length (flux Examples.c63))%nat →
      ∃ f g, flux Examples.c63 !! i = Some f ∧ flux s !! i = Some g ∧
             flux r2 !! i = Some (Numpy.sub (Numpy.sub f g) g).
Proof.
  apply (forced_subtraction_twice keep_first Examples.fs Examples.file63).
  vm_compute. reflexivity.
Defined.

(** ** The methods that replace each order *)

Lemma batch_spec E b self l w :
  heap w !! self = Some l →
  run_batch E b self w
  = (match (replace_all (element_method E b) l).2 with Some e => Err e | None => Ok self end,
     set_list w self (replace_all (element_method E b) l).1).
Proof.
  intros Hself.
  pose proof (replace_loop (element_method E b) self w l []) as Hloop.
  cbn [app length] in Hloop. rewrite (set_list_id _ _ _ Hself) in Hloop.
  destruct b; cbn [run_batch element_method] in *;
    unfold KeckNIRSPECSpectrumList.remove_nans, KeckNIRSPECSpectrumList.remove_outliers,
      KeckNIRSPECSpectrumList.trim_edges;
    rewrite (M_bind_Ok _ _ _ _ _ (len_spec self _ w Hself));
    (destruct (replace_all _ l) as [r [e|]]; cbn [fst snd] in *;
     [by apply M_bind_Err | by rewrite (M_bind_Ok _ _ _ _ _ Hloop)]).
Qed.

(** [remove_nans], [remove_outliers] and [trim_edges] on a list whose
    element method succeeds on every element: the list object holds, at
    the same place and in the same order, what the element method returned
    for each element; the same list object is returned and nothing else
    changes. An empty list is returned as it is. *)
Theorem batch_methods_replace_in_place
    (E : EchelleMethods) (b : BatchMethod) (self : positive)
    (l l' : list Container) (w : World) :
  heap w !! self = Some l →
  Forall2 (λ c c', element_method E b c = Ok c') l l' →
  run_batch E b self w = (Ok self, set_list w self l') ∧
  length l' = length l ∧
  (l = [] → set_list w self l' = w).
Proof.
  intros Hself Hall. rewrite (batch_spec E b self l w Hself).
  rewrite (replace_all_Ok _ _ _ Hall). split; [done|].
  split; [symmetry; by eapply Forall2_length|].
  intros ->. apply Forall2_nil_inv_l in Hall as ->. by apply set_list_id.
Qed.

(** The same methods when the element method raises on the element of
    index [k] and on none before it: the exception is raised, and the
    list object is left half updated, with the new elements before [k]
    and the old ones from [k] on. *)
Theorem batch_methods_stop_half_way
    (E : EchelleMethods) (b : BatchMethod) (self : positive)
    (l pre : list Container) (k : nat) (c : Container) (e : Exception) (w : World) :
  heap w !! self = Some l →
  l !! k = Some c → element_method E b c = Err e →
  Forall2 (λ c c', element_method E b c = Ok c') (take k l) pre →
  run_batch E b self w = (Err e, set_list w self (pre ++ drop k l)).
Proof.
  intros Hself Hk He Hdone. rewrite (batch_spec E b self l w Hself).
  by rewrite (replace_all_Err _ _ _ _ _ _ Hk He Hdone).
Qed.

Lemma batch_methods_replace_in_place_witness :
  run_batch Examples_batch.methods (RemoveOutliers KeckNIRSPECSpectrumList.default_threshold)
            2 Examples_list.world
  = (Ok 2%positive, set_list Examples_list.world 2 [Examples.c63; Examples_list.c64]) ∧
  length [Examples.c63; Examples_list.c64] = length [Examples.c63; Examples_list.c64] ∧
  ([Examples.c63; Examples_list.c64] = [] →
   set_list Examples_list.world 2 [Examples.c63; Examples_list.c64] = Examples_list.world).
Proof.
  apply (batch_methods_replace_in_place Examples_batch.methods
           (RemoveOutliers KeckNIRSPECSpectrumList.default_threshold) 2
           [Examples.c63; Examples_list.c64] [Examples.c63; Examples_list.c64]
           Examples_list.world).
  - vm_compute. reflexivity.
  - repeat constructor.
Defined.

Lemma batch_methods_stop_half_way_witness :
  run_batch Examples_batch.methods TrimEdges 2 Examples_list.world
  = (Err IndexError,
     set_list Examples_list.world 2 ([Examples_batch.trimmed63] ++ drop 1 [Examples.c63; Examples_list.c64])).
Proof.
  apply (batch_methods_stop_half_way Examples_batch.methods TrimEdges 2
           [Examples.c63; Examples_list.c64] [Examples_batch.trimmed63] 1 Examples_list.c64).
  - vm_compute. reflexivity.
  - reflexivity.
  - vm_compute. reflexivity.
  - constructor; [vm_compute; reflexivity|constructor].
Defined.

(** ** The list of orders at the edges *)

Lemma normalize_empty P self w :
  heap w !! self = Some [] →
  KeckNIRSPECSpectrumList.normalize P self w = (Err IndexError, w).
Proof.
  intros Hself. unfold KeckNIRSPECSpectrumList.normalize.
  apply M_bind_Err. by apply (getitem_out_of_range self [] w Hself).
Qed.

(** On an empty list of orders [normalize] raises [IndexError] and
    changes nothing, [stitch] raises [ValueError] after its warning, and
    [remove_nans], [remove_outliers] and [trim_edges] return the list as
    it is. *)
Theorem empty_list_of_orders
    (P : Propagation) (E : EchelleMethods) (self : positive) (w : World) :
  heap w !! self = Some [] →
  KeckNIRSPECSpectrumList.normalize P self w = (Err IndexError, w) ∧
  KeckNIRSPECSpectrumList.stitch self w
    = (Err ValueError, add_log w WARNING "Experimental method") ∧
  ∀ b, run_batch E b self w = (Ok self, w).
Proof.
  intros Hself. split; [by apply normalize_empty|].
  split; [by rewrite (stitch_spec self [] w Hself)|].
  intros b. rewrite (batch_spec E b self [] w Hself). cbn.
  by rewrite (set_list_id _ _ _ Hself).
Qed.

Lemma empty_list_of_orders_witness :
  KeckNIRSPECSpectrumList.normalize keep_first 1 Examples_list.world
    = (Err IndexError, Examples_list.world) ∧
  KeckNIRSPECSpectrumList.stitch 1 Examples_list.world
    = (Err ValueError, add_log Examples_list.world WARNING "Experimental method") ∧
  ∀ b, run_batch Examples_batch.methods b 1 Examples_list.world
       = (Ok 1%positive, Examples_list.world).
Proof.
  apply (empty_list_of_orders keep_first Examples_batch.methods 1 Examples_list.world).
  vm_compute. reflexivity.
Defined.

(** ** A first order without numbers *)

Lemma nanmedian_all_nan l :
  Forall (λ x, Numpy.isnan x = true) l → Numpy.nanmedian l = Numpy.nan.
Proof.
  intros Hall. unfold Numpy.nanmedian.
  assert (filter (λ x, Numpy.isnan x = false) l = []) as ->; [|done].
  induction Hall as [|x l Hx _ IH]; [done|].
  rewrite filter_cons, decide_False by congruence. exact IH.
Qed.

(** When the first order has no flux value that is a number (they are
    all NaN, or there is none), [normalize] raises [ValueError] at its
    first division and leaves the list and everything else as it was. *)
Theorem normalize_without_numbers_raises
    (P : Propagation) (self : positive) (c0 : Container) (rest : list Container) (w : World) :
  heap w !! self = Some (c0 :: rest) →
  Forall (λ x, Numpy.isnan x = true) (flux c0) →
  KeckNIRSPECSpectrumList.normalize P self w = (Err ValueError, w).
Proof.
  intros Hself Hnan. rewrite (normalize_spec P self c0 rest w Hself).
  by rewrite (nanmedian_all_nan _ Hnan).
Qed.

Lemma normalize_without_numbers_witness :
  KeckNIRSPECSpectrumList.normalize keep_first 3 Examples_normalize.world_nan
    = (Err ValueError, Examples_normalize.world_nan) ∧
  KeckNIRSPECSpectrumList.normalize keep_first 7 Examples_normalize.world_nan
    = (Err ValueError, Examples_normalize.world_nan).
Proof.
  split.
  - apply (normalize_without_numbers_raises keep_first 3 Examples_normalize.c65 [Examples.c63]
             Examples_normalize.world_nan).
    + vm_compute. reflexivity.
    + repeat constructor.
  - apply (normalize_without_numbers_raises keep_first 7 Examples_normalize.c_empty [Examples.c63]
             Examples_normalize.world_nan).
    + vm_compute. reflexivity.
    + constructor.
Defined.

(** ** The stitched container *)

(** [stitch] leaves the heap as it is, and the container it returns has
    no metadata: [pipeline], [sky], [flat], [RA], [DEC] and
    [astropy_time] raise [KeyError] on it, and so does a forced sky
    subtraction. *)
Theorem stitched_container_has_no_metadata
    {Q T : Type} (H : HeaderConversions Q T) (P : Propagation)
    (self : positive) (l : list Container) (w : World) :
  heap w !! self = Some l → l ≠ [] →
  ∃ r w',
    KeckNIRSPECSpectrumList.stitch self w = (Ok r, w') ∧ heap w' = heap w ∧
    KeckNIRSPECSpectrum.pipeline r = Err (KeyError "pipeline") ∧
    KeckNIRSPECSpectrum.sky r = Err (KeyError "sky") ∧
    KeckNIRSPECSpectrum.flat r = Err (KeyError "flat") ∧
    KeckNIRSPECSpectrum.RA H r = Err (KeyError "header") ∧
    KeckNIRSPECSpectrum.DEC H r = Err (KeyError "header") ∧
    KeckNIRSPECSpectrum.astropy_time H r = Err (KeyError "header") ∧
    KeckNIRSPECSpectrum.sky_subtract P r true w'
      = (Err (KeyError "sky"), add_log w' WARNING forced_subtraction).
Proof.
  intros Hself Hne. exists (stitched l), (add_log w WARNING "Experimental method").
  rewrite (stitch_spec self l w Hself).
  split; [by destruct l|]. split; [done|].
  repeat split; done.
Qed.

Lemma stitched_container_witness :
  ∃ r w',
    KeckNIRSPECSpectrumList.stitch 2 Examples_list.world = (Ok r, w') ∧
    heap w' = heap Examples_list.world ∧
    KeckNIRSPECSpectrum.pipeline r = Err (KeyError "pipeline") ∧
    KeckNIRSPECSpectrum.sky r = Err (KeyError "sky") ∧
    KeckNIRSPECSpectrum.flat r = Err (KeyError "flat") ∧
    KeckNIRSPECSpectrum.RA Examples_header.conversions r = Err (KeyError "header") ∧
    KeckNIRSPECSpectrum.DEC Examples_header.conversions r = Err (KeyError "header") ∧
    KeckNIRSPECSpectrum.astropy_time Examples_header.conversions r = Err (KeyError "header") ∧
    KeckNIRSPECSpectrum.sky_subtract keep_first r true w'
      = (Err (KeyError "sky"), add_log w' WARNING forced_subtraction).
Proof.
  apply (stitched_container_has_no_metadata Examples_header.conversions keep_first 2
           [Examples.c63; Examples_list.c64] Examples_list.world).
  - vm_compute. reflexivity.
  - discriminate.
Defined.

(** ** Reading, normalizing and stitching in a row *)

Lemma read_valid fs files w :
  (∀ f, f ∈ files → valid_path fs f) →
  ∃ cs,
    KeckNIRSPECSpectrumList.read fs files w
      = (Ok (fresh (dom (heap w))), set_list w (fresh (dom (heap w))) cs) ∧
    Forall2 (λ f c, KeckNIRSPECSpectrum.init_file fs f = Ok c) files cs.
Proof.
  intros Hall.
  destruct (read_loop_valid fs files (length files) 0 []) as (cs & Hloop & Hcs).
  { lia. } { rewrite drop_0, firstn_all. by apply Forall_forall. }
  rewrite drop_0, firstn_all in Hcs. cbn [app] in Hloop.
  exists cs. split; [|done].
  unfold KeckNIRSPECSpectrumList.read.
  by rewrite (M_bind_Ok (lift _) _ w cs w) by (unfold lift; by rewrite Hloop).
Qed.

Lemma init_file_table fs f c :
  KeckNIRSPECSpectrum.init_file fs f = Ok c →
  wavelength c = map wave (table_of fs f) ∧ flux c = map flux_cnts (table_of fs f).
Proof.
  intros (m & hdr & w & h & rows & _ & _ & _ & Hfile & ->)%init_file_Ok.
  unfold table_of. by rewrite Hfile.
Qed.

Lemma map_along_Forall2 {A B C} (R : A → B → Prop) (g : B → C) (h : A → C) l k :
  Forall2 R l k → (∀ a b, R a b → g b = h a) → map g k = map h l.
Proof.
  intros Hlk Hgh. induction Hlk as [|a b l k Hab _ IH]; [done|].
  cbn. by rewrite (Hgh a b Hab), IH.
Qed.

(** Reading a non-empty list of valid paths, normalizing and stitching:
    when the NaN-ignoring median of the flux column of the first table is
    a number, the result is one container whose wavelengths are the
    wavelength columns of the tables, one table after the other in the
    order of the paths, and whose flux values are their flux columns
    divided by that median; one warning is logged. When the median is
    NaN, [normalize] raises [ValueError] and nothing is logged. Either
    way the list objects that were there before are untouched. *)
Theorem read_normalize_stitch
    (P : Propagation) (fs : gmap string File) (f0 : string) (others : list string) (w : World) :
  (∀ f, f ∈ f0 :: others → valid_path fs f) →
  (Numpy.isnan (Numpy.nanmedian (map flux_cnts (table_of fs f0))) = false →
   ∃ out w',
     (r ← KeckNIRSPECSpectrumList.read fs (f0 :: others);
      r' ← KeckNIRSPECSpectrumList.normalize P r;
      KeckNIRSPECSpectrumList.stitch r') w = (Ok out, w') ∧
     log w' = log w ++ [(WARNING, "Experimental method")] ∧
     (∀ r, is_Some (heap w !! r) → heap w' !! r = heap w !! r) ∧
     wavelength out = concat (map (λ f, map wave (table_of fs f)) (f0 :: others)) ∧
     flux out
     = concat (map (λ f, map (λ x, Numpy.div x (Numpy.nanmedian (map flux_cnts (table_of fs f0))))
                             (map flux_cnts (table_of fs f)))
                   (f0 :: others)) ∧
     length (flux out) = sum_list (map (λ f, length (table_of fs f)) (f0 :: others))) ∧
  (Numpy.isnan (Numpy.nanmedian (map flux_cnts (table_of fs f0))) = true →
   ∃ w',
     (r ← KeckNIRSPECSpectrumList.read fs (f0 :: others);
      r' ← KeckNIRSPECSpectrumList.normalize P r;
      KeckNIRSPECSpectrumList.stitch r') w = (Err ValueError, w') ∧
     log w' = log w ∧
     (∀ r, is_Some (heap w !! r) → heap w' !! r = heap w !! r)).
Proof.
  intros Hall.
  destruct (read_valid fs (f0 :: others) w Hall) as (cs & Hread & Hcs).
  set (r := fresh (dom (heap w))) in *.
  assert (heap w !! r = None) as Hfresh by apply not_elem_of_dom, is_fresh.
  pose proof Hcs as Hcs'.
  apply Forall2_cons_inv_l in Hcs' as (c0 & crest & Hc0 & Hrest & ->).
  destruct (init_file_table _ _ _ Hc0) as [_ Hflux0].
  set (m := Numpy.nanmedian (map flux_cnts (table_of fs f0))).
  set (w1 := set_list w r (c0 :: crest)).
  pose proof (normalize_spec P r c0 crest w1 (set_list_lookup _ _ _)) as Hnorm.
  rewrite Hflux0 in Hnorm. fold m in Hnorm.
  assert (∀ l r', is_Some (heap w !! r') → heap (set_list w r l) !! r' = heap w !! r') as Hold.
  { intros l r' [x Hx]. cbn. apply lookup_insert_ne. intros <-. congruence. }
  split; intros Hm; rewrite Hm in Hnorm.
  - set (l2 := map (divided P m) (c0 :: crest)) in *.
    unfold w1 in Hnorm at 2. rewrite set_list_set_list in Hnorm.
    pose proof (stitch_spec r l2 (set_list w r l2) (set_list_lookup _ _ _)) as Hstitch.
    change (match l2 with [] => Err ValueError | _ :: _ => Ok (stitched l2) end)
      with (Ok (stitched l2) : Result Container) in Hstitch.
    exists (stitched l2), (add_log (set_list w r l2) WARNING "Experimental method").
    split.
    { rewrite (M_bind_Ok _ _ _ _ _ Hread). fold w1.
      by rewrite (M_bind_Ok _ _ _ _ _ Hnorm). }
    split; [done|]. split; [apply Hold|].
    assert (map wavelength l2 = map (λ f, map wave (table_of fs f)) (f0 :: others)) as Hw.
    { unfold l2. rewrite map_map.
      apply (map_along_Forall2 _ _ _ _ _ Hcs). intros f c Hc.
      destruct (init_file_table _ _ _ Hc) as [Hwl _]. exact Hwl. }
    assert (map flux l2
            = map (λ f, map (λ x, Numpy.div x m) (map flux_cnts (table_of fs f))) (f0 :: others))
      as Hf.
    { unfold l2. rewrite map_map.
      apply (map_along_Forall2 _ _ _ _ _ Hcs). intros f c Hc.
      destruct (init_file_table _ _ _ Hc) as [_ Hfl]. cbn [divided flux]. by rewrite Hfl. }
    unfold stitched. cbn [wavelength spectral_axis flux].
    rewrite Hw, Hf. split; [done|]. split; [done|].
    generalize (f0 :: others). intros fl.
    induction fl as [|f fl IH]; [done|].
    cbn. rewrite length_app, !length_map, IH. done.
  - exists w1. split.
    { rewrite (M_bind_Ok _ _ _ _ _ Hread). fold w1.
      by apply M_bind_Err. }
    split; [done|]. apply Hold.
Qed.

Lemma read_normalize_stitch_witness :
  ∃ out w',
    (r ← KeckNIRSPECSpectrumList.read Examples_median.fs
           [Examples_median.dotted63; Examples_median.dotted66];
     r' ← KeckNIRSPECSpectrumList.normalize keep_first r;
     KeckNIRSPECSpectrumList.stitch r') Examples_list.world = (Ok out, w') ∧
    log w' = log Examples_list.world ++ [(WARNING, "Experimental method")] ∧
    (∀ r, is_Some (heap Examples_list.world !! r) → heap w' !! r = heap Examples_list.world !! r) ∧
    wavelength out
    = concat (map (λ f, map wave (table_of Examples_median.fs f))
                  [Examples_median.dotted63; Examples_median.dotted66]) ∧
    flux out
    = concat (map (λ f, map (λ x, Numpy.div x (Numpy.nanmedian
                                     (map flux_cnts (table_of Examples_median.fs
                                                              Examples_median.dotted63))))
                            (map flux_cnts (table_of Examples_median.fs f)))
                  [Examples_median.dotted63; Examples_median.dotted66]) ∧
    length (flux out)
    = sum_list (map (λ f, length (table_of Examples_median.fs f))
                    [Examples_median.dotted63; Examples_median.dotted66]).
Proof.
  apply (proj1 (read_normalize_stitch keep_first Examples_median.fs Examples_median.dotted63
                  [Examples_median.dotted66] Examples_list.world
                  ltac:(intros f Hf;
                        apply elem_of_cons in Hf as [->|Hf]; [vm_compute; reflexivity|];
                        apply elem_of_cons in Hf as [->|Hf]; [vm_compute; reflexivity|];
                        by apply elem_of_nil in Hf))).
  vm_compute. reflexivity.
Defined.

Example read_normalize_stitch_flux :
  ∃ out w',
    (r ← KeckNIRSPECSpectrumList.read Examples_median.fs
           [Examples_median.dotted63; Examples_median.dotted66];
     r' ← KeckNIRSPECSpectrumList.normalize keep_first r;
     KeckNIRSPECSpectrumList.stitch r') Examples_list.world = (Ok out, w') ∧
    flux out = map (λ z, Numpy.div (Numpy.of_Z z) (Numpy.of_Z 6)) [6; 3; 9; 10; 40; 20].
Proof. eexists _, _. split; vm_compute; reflexivity. Qed.

(** ** The characters of the order number *)

Lemma elem_of_all_ascii c : In c all_ascii.
Proof.
  unfold all_ascii. apply in_map_iff. exists (nat_of_ascii c).
  split; [apply ascii_nat_embedding|].
  apply in_seq. pose proof (nat_ascii_bounded c). lia.
Qed.

Lemma all_pairs_checked :
  forallb (λ c1, forallb (int_of_pair_checked c1) all_ascii) all_ascii = true.
Proof. vm_compute. reflexivity. Qed.

Lemma int_of_pair c1 c2 :
  match PyStr.int (String c1 (String c2 "")) with
  | Some v => reads_as_int c1 c2 = true ∧ -9 ≤ v ≤ 99
  | None => reads_as_int c1 c2 = false
  end.
Proof.
  pose proof all_pairs_checked as H.
  rewrite forallb_forall in H. specialize (H c1 (elem_of_all_ascii c1)).
  rewrite forallb_forall in H. specialize (H c2 (elem_of_all_ascii c2)).
  unfold int_of_pair_checked in H.
  destruct (PyStr.int _) as [v|].
  - apply andb_true_iff in H as [H H2]. apply andb_true_iff in H as [H H1].
    apply Z.leb_le in H1, H2. done.
  - by apply negb_true_iff in H.
Qed.

Lemma length_drop k : ∀ s, String.length (PyStr.drop k s) = (String.length s - k)%nat.
Proof.
  induction k as [|k IH]; intros s; [by destruct s; cbn; lia|].
  destruct s as [|c s]; [done|]. cbn. apply IH.
Qed.

Lemma suffix_two s :
  (2 ≤ String.length s)%nat → ∃ c1 c2, PyStr.suffix 2 s = String c1 (String c2 "").
Proof.
  intros Hs. unfold PyStr.suffix.
  pose proof (length_drop (String.length s - 2) s) as Hlen.
  destruct (PyStr.drop _ s) as [|c1 [|c2 [|c3 t]]]; cbn in Hlen; try lia.
  by exists c1, c2.
Qed.

Lemma length_take_le k : ∀ s, (k ≤ String.length s)%nat → String.length (PyStr.take k s) = k.
Proof.
  induction k as [|k IH]; intros s Hk; [by destruct s|].
  destruct s as [|c s]; cbn in *; [lia|]. rewrite IH; lia.
Qed.

Lemma find_lt sub s i : PyStr.find sub s = Some i → (i ≤ String.length s)%nat.
Proof.
  revert i. induction s as [|c s IH]; intros i; cbn [PyStr.find].
  - destruct (String.prefix sub ""); [|done]. intros [= <-]. cbn. lia.
  - destruct (String.prefix sub (String c s)); [intros [= <-]; cbn; lia|].
    destruct (PyStr.find sub s) as [j|]; [|done]. intros [= <-].
    specialize (IH j eq_refl). cbn. lia.
Qed.

(** The stem of an accepted name ends in two characters. *)
Lemma stem_has_two_characters file :
  starts_NS file = true → names_table file = true →
  ∃ c1 c2, PyStr.suffix 2 (file_stem file) = String c1 (String c2 "").
Proof.
  unfold starts_NS, names_table. intros Hns Htbl.
  apply bool_decide_eq_true in Htbl.
  apply (find_prefix "_flux") in Htbl as [i Hi]; [|done].
  unfold file_stem. rewrite (split_first _ _ _ Hi).
  apply suffix_two. pose proof (find_lt _ _ _ Hi) as Hle.
  rewrite length_take_le by done.
  apply String.eqb_eq in Hns.
  destruct (basename file) as [|a [|b [|c r]]]; cbn in Hns; try discriminate Hns.
  inversion Hns; subst.
  cbn in Hi. destruct (PyStr.find "_flux" _) in Hi; [|done]. injection Hi as <-. lia.
Qed.

Lemma init_file_no_order fs file :
  starts_NS file = true → names_table file = true → order_of file = None →
  KeckNIRSPECSpectrum.init_file fs file = Err ValueError.
Proof.
  unfold starts_NS, names_table, order_of, file_stem, basename.
  intros Hns Htbl Hint. unfold KeckNIRSPECSpectrum.init_file.
  by rewrite Hns, Htbl, Hint.
Qed.

(** For a name that passes the two assertions, the stem ends in two
    characters; when they are not two digits, nor a digit after a sign or
    a blank, nor a digit before a blank, the construction raises
    [ValueError]; and for every constructed container they are such a
    pair and the order number lies between -9 and 99. *)
Theorem order_number_characters (fs : gmap string File) (file : string) :
  starts_NS file = true → names_table file = true →
  ∃ c1 c2,
    PyStr.suffix 2 (file_stem file) = String c1 (String c2 "") ∧
    (reads_as_int c1 c2 = false → KeckNIRSPECSpectrum.init_file fs file = Err ValueError) ∧
    (∀ c, KeckNIRSPECSpectrum.init_file fs file = Ok c →
          reads_as_int c1 c2 = true ∧
          ∃ m, meta c !! "m" = Some (MInt m) ∧ -9 ≤ m ≤ 99).
Proof.
  intros Hns Htbl.
  destruct (stem_has_two_characters file Hns Htbl) as (c1 & c2 & Hsuf).
  exists c1, c2. split; [done|].
  pose proof (int_of_pair c1 c2) as Hpair. rewrite <- Hsuf in Hpair.
  fold (order_of file) in Hpair.
  destruct (order_of file) as [m|] eqn:Hint.
  - destruct Hpair as [Hreads Hrange]. split; [congruence|].
    intros c (m' & hdr & w & h & rows & _ & _ & Hint' & _ & ->)%init_file_Ok.
    fold (order_of file) in Hint'. rewrite Hint in Hint'. injection Hint' as <-.
    split; [done|]. exists m. split; [|done].
    unfold primary_of. cbn. rewrite lookup_insert_ne by done. apply meta_dict_m.
  - split; [intros _; by apply init_file_no_order|].
    intros c Hc. rewrite (init_file_no_order fs file Hns Htbl Hint) in Hc. discriminate.
Qed.

Lemma order_number_characters_witness :
  ∃ c1 c2,
    PyStr.suffix 2 (file_stem Examples.file63) = String c1 (String c2 "") ∧
    (reads_as_int c1 c2 = false →
     KeckNIRSPECSpectrum.init_file Examples.fs Examples.file63 = Err ValueError) ∧
    (∀ c, KeckNIRSPECSpectrum.init_file Examples.fs Examples.file63 = Ok c →
          reads_as_int c1 c2 = true ∧
          ∃ m, meta c !! "m" = Some (MInt m) ∧ -9 ≤ m ≤ 99).
Proof.
  apply (order_number_characters Examples.fs Examples.file63); reflexivity.
Defined.

Example negative_order_number :
  ∃ c, KeckNIRSPECSpectrum.init_file
         (<["/d/NS.1_-7_flux_tbl.fits" := Fits ∅ (Some Examples.table64)]> ∅)
         "/d/NS.1_-7_flux_tbl.fits" = Ok c ∧
       meta c !! "m" = Some (MInt (-7)).
Proof. eexists. split; vm_compute; reflexivity. Qed.
